(** * Template and expression evaluation of the filter rotator

    A shallow embedding of [src/filter_rotator_function/template_evaluation.py]:
    the string helpers [_start] and [_end], the time helper [_unixtime], the
    registry built by [eval_expression] and the substitution loop of
    [eval_template].

    Python [str] values are [string]s (one character per code point, code
    points below 256), Python [int]s are [Z], floats are IEEE binary64 values
    ([spec_float]), dictionaries with string keys are [gmap string _], and a
    dictionary object lives in a heap, so that copying and updating it is
    visible.  The values a name is bound to are immutable: numbers, strings,
    dates and the like; names bound to objects that can be changed are the
    matter of the module [Shared].  What the module imports ([simpleeval], [dateutil], the clock
    and the formatting of [datetime], the printing of floats) is collected in
    one interface, [Externals], over which the statements are quantified.

    The handler of [src/filter_rotator_function/filter_rotator.py] follows,
    over an interface of its own for the client of the service. *)

From Stdlib Require Import ZArith Ascii String SpecFloat.
From stdpp Require Import base gmap strings list fin_maps pretty.

Local Open Scope Z_scope.

(** ** Python strings *)

Module PyStr.

Abbreviation len := String.length.

(** [s[:n]] and [s[n:]] for an index already brought into [0 .. len s]. *)
Fixpoint take (n : nat) (s : string) : string :=
  match n, s with
  | S k, String c r => String c (take k r)
  | _, _ => EmptyString
  end.

Fixpoint drop (n : nat) (s : string) : string :=
  match n, s with
  | S k, String _ r => drop k r
  | _, _ => s
  end.

(** What CPython's [PySlice_AdjustIndices] does to one bound when the step
    is 1: a negative bound counts from the end, and the result is clipped
    to [0 .. len]. *)
Definition adjust_index (length i : Z) : Z :=
  if i <? 0 then Z.max (i + length) 0 else Z.min i length.

(** [s[start:stop]]; a missing bound is [None]. *)
Definition getslice (s : string) (start stop : option Z) : string :=
  let n := Z.of_nat (len s) in
  let lo := from_option (adjust_index n) 0 start in
  let hi := from_option (adjust_index n) n stop in
  take (Z.to_nat (hi - lo)) (drop (Z.to_nat lo) s).

(** [s.startswith(p)] and [s.endswith(p)] for two strings. *)
Definition startswith (s p : string) : bool := String.prefix p s.

Definition endswith (s p : string) : bool :=
  bool_decide (len p ≤ len s)%nat
  && bool_decide (drop (len s - len p) s = p).

(** The characters [str.strip] removes, among the code points below 256. *)
Definition isspace (c : ascii) : bool :=
  let n := nat_of_ascii c in
  bool_decide (9 ≤ n ≤ 13 ∨ 28 ≤ n ≤ 32 ∨ n = 133 ∨ n = 160)%nat.

Fixpoint lstrip (s : string) : string :=
  match s with
  | String c r => if isspace c then lstrip r else s
  | EmptyString => EmptyString
  end.

Definition strip (s : string) : string :=
  String.rev (lstrip (String.rev (lstrip s))).

(** [s] without the prefix [p], when it starts with it. *)
Fixpoint strip_prefix (p s : string) : option string :=
  match p, s with
  | EmptyString, _ => Some s
  | String c p', String d s' =>
    if Ascii.eqb c d then strip_prefix p' s' else None
  | String _ _, EmptyString => None
  end.

(** [c not in s] *)
Fixpoint lacks (c : ascii) (s : string) : bool :=
  match s with
  | EmptyString => true
  | String d r => negb (Ascii.eqb d c) && lacks c r
  end.

(** [str(n).zfill(w)] for a non-negative [n]. *)
Fixpoint zeros (n : nat) : string :=
  match n with O => EmptyString | S k => String "0" (zeros k) end.

Definition zfill (w : nat) (n : Z) : string :=
  let d := pretty n in zeros (w - len d) +:+ d.

End PyStr.

(** ** The string helpers *)

(** [def _end(s, num): return s[-abs(num):]] *)
Definition _end (s : string) (num : Z) : string :=
  PyStr.getslice s (Some (- Z.abs num)) None.

(** [def _start(s, num): return s[0:num]] *)
Definition _start (s : string) (num : Z) : string :=
  PyStr.getslice s (Some 0) (Some num).

(** [def _starts_with(s, prefix): return s.startswith(prefix)] *)
Definition _starts_with (s prefix : string) : bool := PyStr.startswith s prefix.

(** [def _ends_with(s, suffix): return s.endswith(suffix)] *)
Definition _ends_with (s suffix : string) : bool := PyStr.endswith s suffix.

(** ** Values, exceptions, results *)

(** The classes of the [datetime] module.  [datetime.datetime] is a subclass
    of [datetime.date]; [datetime.time] is unrelated to both. *)
Record date := Date { year : Z; month : Z; day : Z }.
Record time := Time { hour : Z; minute : Z; second : Z; microsecond : Z }.
Record datetime := DateTime { dt_date : date; dt_time : time }.
(** A [timedelta] is kept normalised: [0 <= seconds < 86400] and
    [0 <= microseconds < 1000000]. *)
Record timedelta := TimeDelta { td_days : Z; td_seconds : Z; td_microseconds : Z }.

Inductive value :=
| VNone
| VBool (b : bool)
| VInt (n : Z)
| VFloat (x : spec_float)
| VStr (s : string)
| VDate (d : date)
| VTime (t : time)
| VDateTime (d : datetime)
| VTimedelta (d : timedelta).

#[global] Instance date_eq_dec : EqDecision date.
Proof. solve_decision. Defined.
#[global] Instance time_eq_dec : EqDecision time.
Proof. solve_decision. Defined.
#[global] Instance datetime_eq_dec : EqDecision datetime.
Proof. solve_decision. Defined.
#[global] Instance timedelta_eq_dec : EqDecision timedelta.
Proof. solve_decision. Defined.
#[global] Instance spec_float_eq_dec : EqDecision spec_float.
Proof. solve_decision. Defined.
#[global] Instance value_eq_dec : EqDecision value.
Proof. solve_decision. Defined.

(** The exceptions that can leave the module, by kind. *)
Inductive error :=
| SyntaxError
| NameNotDefined (name : string)
| FunctionNotDefined (name : string)
| AttributeError (attr : string)
| TypeError
| ValueError
| OverflowError
| ParserError
| OtherError (what : string)
| NotModelled (what : string).

#[global] Instance error_eq_dec : EqDecision error.
Proof. solve_decision. Defined.

Inductive result (A : Type) :=
| Ok (a : A)
| Raise (e : error).
Arguments Ok {A} a.
Arguments Raise {A} e.

Definition result_bind {A B} (r : result A) (k : A → result B) : result B :=
  match r with Ok a => k a | Raise e => Raise e end.

#[global] Instance result_ret : MRet result := @Ok.
#[global] Instance result_mbind : MBind result :=
  λ A B k r, result_bind r k.
#[global] Instance result_fmap : FMap result :=
  λ A B f r, result_bind r (λ a, Ok (f a)).

(** A function of the registry, applied to its positional arguments. *)
Definition callable := list value → result value.

(** ** [isinstance] and the methods the helpers call *)

Definition isinstance_str (v : value) : bool :=
  match v with VStr _ => true | _ => false end.

Definition isinstance_time (v : value) : bool :=
  match v with VTime _ => true | _ => false end.

Definition isinstance_date (v : value) : bool :=
  match v with VDate _ | VDateTime _ => true | _ => false end.

(** An index as slicing takes it: an [int], or a [bool] through [__index__]. *)
Definition as_index (v : value) : option Z :=
  match v with
  | VInt n => Some n
  | VBool b => Some (if b then 1 else 0)
  | _ => None
  end.

(** [datetime.timedelta(seconds=n)] for an integer [n]; the other units are
    multiples of it.  A magnitude of more than 999999999 days overflows. *)
Definition timedelta_of_seconds (n : Z) : result value :=
  let d := n / 86400 in
  if bool_decide (-999999999 ≤ d ≤ 999999999)
  then Ok (VTimedelta (TimeDelta d (n mod 86400) 0))
  else Raise OverflowError.

Definition timedelta_of_units (unit : Z) (v : value) : result value :=
  match v with
  | VInt n => timedelta_of_seconds (unit * n)
  | VBool b => timedelta_of_seconds (unit * (if b then 1 else 0))
  | VFloat _ => Raise (NotModelled "timedelta of a float")
  | _ => Raise TypeError
  end.

(** [def _timedelta_days(v): return datetime.timedelta(days=v)] and the
    three like it. *)
Definition _timedelta_days : value → result value := timedelta_of_units 86400.
Definition _timedelta_hours : value → result value := timedelta_of_units 3600.
Definition _timedelta_minutes : value → result value := timedelta_of_units 60.
Definition _timedelta_seconds : value → result value := timedelta_of_units 1.

(** ** The world: heap of dictionaries, clock, calls of the evaluator *)

Definition loc := nat.

(** One call of [simple_eval], as seen from outside: the expression and the
    contents of the two tables handed over. *)
Record call := Call {
  call_expr : string;
  call_functions : gmap string callable;
  call_names : gmap string value
}.

Record world := World {
  heap : gmap loc (gmap string value);  (* the dictionary objects *)
  clock_reads : nat;                    (* readings of the clock so far *)
  evals : list call                     (* calls of [simple_eval] so far *)
}.

(** A computation reads and changes the world and returns or raises; what it
    did before raising stays done. *)
Definition M (A : Type) : Type := world → result A * world.

#[global] Instance M_ret : MRet M := λ A a w, (Ok a, w).
#[global] Instance M_bind : MBind M := λ A B k m w,
  match m w with
  | (Ok a, w') => k a w'
  | (Raise e, w') => (Raise e, w')
  end.

(** The contents of the dictionary at [l]; a reference that is not live
    reads as the empty dictionary (Python has no such reference). *)
Definition deref (w : world) (l : loc) : gmap string value :=
  default ∅ (heap w !! l).

(** [d.copy()] of a table [d]: a new dictionary object with the same items. *)
Definition dict_copy (d : gmap string value) : M loc := λ w,
  let l := fresh (dom (heap w)) in
  (Ok l, World (<[l := d]> (heap w)) (clock_reads w) (evals w)).

(** [target.update(k=v)] *)
Definition dict_update_kw (target : loc) (k : string) (v : value) : M unit :=
  λ w, (Ok (), World (<[target := <[k := v]> (deref w target)]> (heap w))
                     (clock_reads w) (evals w)).

(** [target.update(source)]: the items of [source] are written into
    [target]; [source] is only read.  Updating from [None] is a type error. *)
Definition dict_update (target : loc) (source : option loc) : M unit :=
  λ w, match source with
       | Some l =>
         (Ok (), World (<[target := deref w l ∪ deref w target]> (heap w))
                       (clock_reads w) (evals w))
       | None => (Raise TypeError, w)
       end.

(** [if b: m] *)
Definition when_ (b : bool) (m : M unit) : M unit :=
  if b then m else mret ().

(** The truth value of [names] in [if names:]: [None] and the empty
    dictionary are false. *)
Definition truthy (names : option loc) : M bool := λ w,
  (Ok match names with
      | None => false
      | Some l => negb (bool_decide (deref w l = ∅))
      end, w).

(** What a computation returns or raises in the world [w], and the world
    it leaves. *)
Definition result_of {A} (m : M A) (w : world) : result A := (m w).1.
Definition world_after {A} (m : M A) (w : world) : world := (m w).2.

(** A reference the caller holds is to an object of the heap. *)
Definition live (w : world) (names : option loc) : Prop :=
  match names with
  | Some l => is_Some (heap w !! l)
  | None => True
  end.

(** The objects of [w] are in [w'], with the same contents. *)
Definition extends (w w' : world) : Prop :=
  ∀ l d, heap w !! l = Some d → heap w' !! l = Some d.

(** ** The imported libraries *)

Class Externals := {
  (** [simpleeval.DEFAULT_FUNCTIONS] and [simpleeval.DEFAULT_NAMES] *)
  DEFAULT_FUNCTIONS : gmap string callable;
  DEFAULT_NAMES : gmap string value;
  (** [simpleeval.simple_eval(expr, functions=..., names=...)]; it reads the
      two tables and returns a value or raises *)
  simple_eval : string → gmap string callable → gmap string value → result value;
  (** [dateutil.parser.parse] *)
  dateutil_parse : string → result datetime;
  (** [datetime.datetime.timestamp], which depends on the local time zone *)
  datetime_timestamp : datetime → result spec_float;
  (** [strftime] of a date, time or datetime value *)
  strftime : value → string → result string;
  (** the value [datetime.datetime.now()] returns at its k-th call *)
  wall_clock : nat → datetime;
  (** [repr] of a float *)
  float_repr : spec_float → string
}.

(** ** [str] of a value *)

Definition date_isoformat (d : date) : string :=
  PyStr.zfill 4 (year d) +:+ "-" +:+ PyStr.zfill 2 (month d) +:+ "-"
  +:+ PyStr.zfill 2 (day d).

Definition fraction (us : Z) : string :=
  if bool_decide (us = 0) then "" else "." +:+ PyStr.zfill 6 us.

Definition time_isoformat (t : time) : string :=
  PyStr.zfill 2 (hour t) +:+ ":" +:+ PyStr.zfill 2 (minute t) +:+ ":"
  +:+ PyStr.zfill 2 (second t) +:+ fraction (microsecond t).

Definition timedelta_str (d : timedelta) : string :=
  let mm := td_seconds d / 60 in
  let ss := td_seconds d mod 60 in
  let hh := mm / 60 in
  let mm := mm mod 60 in
  let s := pretty hh +:+ ":" +:+ PyStr.zfill 2 mm +:+ ":" +:+ PyStr.zfill 2 ss in
  let s := if bool_decide (td_days d = 0) then s
           else pretty (td_days d) +:+ " day"
                +:+ (if bool_decide (Z.abs (td_days d) = 1) then "" else "s")
                +:+ ", " +:+ s in
  s +:+ fraction (td_microseconds d).

(** [str(v)], given the printer of floats. *)
Definition str_with (repr : spec_float → string) (v : value) : string :=
  match v with
  | VNone => "None"
  | VBool b => if b then "True" else "False"
  | VInt n => pretty n
  | VFloat x => repr x
  | VStr s => s
  | VDate d => date_isoformat d
  | VTime t => time_isoformat t
  | VDateTime d => date_isoformat (dt_date d) +:+ " " +:+ time_isoformat (dt_time d)
  | VTimedelta d => timedelta_str d
  end.

Section Engine.
Context `{Externals}.

Definition py_str : value → string := str_with float_repr.

(** [datetime.datetime.now()] *)
Definition datetime_now : M datetime := λ w,
  (Ok (wall_clock (clock_reads w)),
   World (heap w) (S (clock_reads w)) (evals w)).

(** The call [simple_eval(s, functions=functions, names=names_combined)],
    with the dictionary [names_combined] read at the time of the call.  The
    tables hold immutable values and functions of them, so that the
    evaluator has nothing to change here; what it can do to an object that
    a name is bound to is modelled in [Shared]. *)
Definition call_simple_eval (s : string) (functions : gmap string callable)
    (names_combined : loc) : M value := λ w,
  let d := deref w names_combined in
  (simple_eval s functions d,
   World (heap w) (clock_reads w) (evals w ++ [Call s functions d])).

(** *** The time helpers *)

(** [s.timestamp()]: only [datetime.datetime] defines the method;
    [datetime.date] and [datetime.time] do not. *)
Definition method_timestamp (s : value) : result value :=
  match s with
  | VDateTime d => VFloat <$> datetime_timestamp d
  | _ => Raise (AttributeError "timestamp")
  end.

(** [[
    def _unixtime(s):
        if isinstance(s, str):
            return parse(s).timestamp()
        if isinstance(s, datetime.time) or isinstance(s, datetime.date):
            return s.timestamp()
        return s
    ]] *)
Definition _unixtime (s : value) : result value :=
  match s with
  | VStr text => d ← dateutil_parse text; VFloat <$> datetime_timestamp d
  | _ =>
    if isinstance_time s || isinstance_date s
    then method_timestamp s
    else Ok s
  end.

(** [def _datetime_format(d, pattern): return d.strftime(pattern)] *)
Definition _datetime_format (d pattern : value) : result value :=
  if isinstance_time d || isinstance_date d
  then match pattern with
       | VStr p => VStr <$> strftime d p
       | _ => Raise TypeError
       end
  else Raise (AttributeError "strftime").

(** *** The helpers as registry entries: a call with the wrong number of
    arguments, or with arguments the body cannot use, raises. *)

Definition call_starts_with : callable := λ args,
  match args with
  | [VStr s; VStr p] => Ok (VBool (_starts_with s p))
  | [VStr _; _] => Raise TypeError
  | [_; _] => Raise (AttributeError "startswith")
  | _ => Raise TypeError
  end.

Definition call_ends_with : callable := λ args,
  match args with
  | [VStr s; VStr p] => Ok (VBool (_ends_with s p))
  | [VStr _; _] => Raise TypeError
  | [_; _] => Raise (AttributeError "endswith")
  | _ => Raise TypeError
  end.

Definition call_start : callable := λ args,
  match args with
  | [VStr s; VNone] => Ok (VStr (PyStr.getslice s (Some 0) None))
  | [VStr s; n] =>
    match as_index n with
    | Some n => Ok (VStr (_start s n))
    | None => Raise TypeError
    end
  | _ => Raise TypeError
  end.

Definition call_end : callable := λ args,
  match args with
  | [VStr s; n] =>
    match as_index n with
    | Some n => Ok (VStr (_end s n))
    | None => Raise TypeError
    end
  | _ => Raise TypeError
  end.

Definition unary (f : value → result value) : callable := λ args,
  match args with [v] => f v | _ => Raise TypeError end.

Definition binary (f : value → value → result value) : callable := λ args,
  match args with [v1; v2] => f v1 v2 | _ => Raise TypeError end.

(** The keyword arguments of [functions.update(...)]. *)
Definition domain_functions : gmap string callable :=
  list_to_map [
    ("unixtime", unary _unixtime);
    ("datetime_format", binary _datetime_format);
    ("starts_with", call_starts_with);
    ("ends_with", call_ends_with);
    ("start", call_start);
    ("end", call_end);
    ("timedelta_days", unary _timedelta_days);
    ("timedelta_hours", unary _timedelta_hours);
    ("timedelta_minutes", unary _timedelta_minutes);
    ("timedelta_seconds", unary _timedelta_seconds)
  ].

(** [[
    def eval_expression(s, names=None):
        functions = DEFAULT_FUNCTIONS.copy()
        functions.update(unixtime=_unixtime, ...)
        names_combined = DEFAULT_NAMES.copy()
        names_combined.update(now=datetime.datetime.now())
        if names:
            names_combined.update(names)
        return simple_eval(s, functions=functions, names=names_combined)
    ]] *)
Definition eval_expression (s : string) (names : option loc) : M value :=
  let functions := domain_functions ∪ DEFAULT_FUNCTIONS in
  names_combined ← dict_copy DEFAULT_NAMES;
  now ← datetime_now;
  dict_update_kw names_combined "now" (VDateTime now);;
  b ← truthy names;
  when_ b (dict_update names_combined names);;
  call_simple_eval s functions names_combined.

End Engine.

(** ** The pattern of [eval_template] and [re.sub] *)

Module Re.

(** The regular expressions the pattern is made of. *)
Inductive regex :=
| Chr (c : ascii)             (* the character [c], written [\c] *)
| NotChr (c : ascii)          (* the class [[^\c]] *)
| Seq (r1 r2 : regex)
| Star (r : regex).

(** The strings a regular expression matches. *)
Inductive matches : regex → string → Prop :=
| matches_chr c : matches (Chr c) (String c "")
| matches_notchr c d : d ≠ c → matches (NotChr c) (String d "")
| matches_seq r1 r2 s1 s2 :
    matches r1 s1 → matches r2 s2 → matches (Seq r1 r2) (s1 +:+ s2)
| matches_star_nil r : matches (Star r) ""
| matches_star_cons r s1 s2 :
    matches r s1 → matches (Star r) s2 → matches (Star r) (s1 +:+ s2).

(** The pattern of the source, read from left to right: [\{\{], then
    group 1, which is a starred class [[^\}]], then [\}\}]. *)
Definition opening : regex := Seq (Chr "{") (Chr "{").
Definition group1 : regex := Star (NotChr "}").
Definition closing : regex := Seq (Chr "}") (Chr "}").
Definition pattern : regex := Seq opening (Seq group1 closing).

(** The longest run of characters other than [c] at the head of [s], and
    what follows it. *)
Fixpoint span_not (c : ascii) (s : string) : string * string :=
  match s with
  | EmptyString => (EmptyString, EmptyString)
  | String d r =>
    if Ascii.eqb d c then (EmptyString, s)
    else let '(run, rest) := span_not c r in (String d run, rest)
  end.

(** The match of the pattern that starts at the head of [s], if there is
    one: its group 1. *)
Definition match_at (s : string) : option string :=
  r ← PyStr.strip_prefix "{{" s;
  let '(body, after) := span_not "}" r in
  _ ← PyStr.strip_prefix "}}" after;
  Some body.

(** The template cut at the matches [re.sub] finds: a character that no
    match covers, or a match with its group 1. *)
Inductive piece :=
| Lit (c : ascii)
| Region (body : string).

(** The scan of [re.sub], from left to right: where the pattern matches,
    the match is taken and the scan resumes behind it ([skip] counts the
    characters of the match still to pass); elsewhere the character is
    kept and the scan moves on by one. *)
Fixpoint scan (s : string) (skip : nat) : list piece :=
  match s with
  | EmptyString => []
  | String c r =>
    match skip with
    | S k => scan r k
    | O =>
      match match_at s with
      | Some body => Region body :: scan r (PyStr.len body + 3)
      | None => Lit c :: scan r 0
      end
    end
  end.

Definition split (s : string) : list piece := scan s 0.

(** The text of the template a piece stands for. *)
Definition source (p : piece) : string :=
  match p with
  | Lit c => String c ""
  | Region body => "{{" +:+ body +:+ "}}"
  end.

Definition join (l : list string) : string := foldr String.app "" l.

(** The group-1 texts of the matches, in order. *)
Definition bodies (l : list piece) : list string :=
  omap (λ p, match p with Region b => Some b | Lit _ => None end) l.

(** What [re.sub] puts in the place of a piece: a match is replaced by
    what [repl] returns for it, the rest is kept. *)
Definition replace (repl : string → M string) (p : piece) : M string :=
  match p with
  | Lit c => mret (String c "")
  | Region body => repl body
  end.

(** [re.sub(pattern, repl, s)] with a function [repl] of group 1: the
    matches are replaced from left to right and the pieces joined. *)
Definition sub (repl : string → M string) (s : string) : M string :=
  outs ← mapM (replace repl) (split s);
  mret (join outs).

End Re.

Section Template.
Context `{Externals}.

(** [[
    def eval_template(s, names=None):
        return re.sub(PATTERN,
                      lambda m: str(eval_expression(m.group(1), names)), s)
    ]]
    where [PATTERN] is the raw string that [Re.pattern] transcribes. *)
Definition repl (names : option loc) (body : string) : M string :=
  v ← eval_expression body names; mret (py_str v).

Definition eval_template (s : string) (names : option loc) : M string :=
  Re.sub (repl names) s.

(** The replacement of the pieces [ps], from left to right. *)
Definition render (names : option loc) (ps : list Re.piece) : M (list string) :=
  mapM (Re.replace (repl names)) ps.

(** *** The tables a call of [simple_eval] is given, for the statements *)

(** The dictionary the caller passed, as it is in the world [w]. *)
Definition overlay (w : world) (names : option loc) : gmap string value :=
  from_option (deref w) ∅ names.

(** The caller's names [d] over [now] over the default names, with [now]
    the k-th reading of the clock. *)
Definition names_at (d : gmap string value) (k : nat) : gmap string value :=
  d ∪ <["now" := VDateTime (wall_clock k)]> DEFAULT_NAMES.

(** The same for a call made in the world [w]. *)
Definition registry_names (w : world) (names : option loc) : gmap string value :=
  names_at (overlay w names) (clock_reads w).

(** The helpers of the module over the default functions. *)
Definition registry_functions : gmap string callable :=
  domain_functions ∪ DEFAULT_FUNCTIONS.

(** The calls of [simple_eval] made between the worlds [w] and [w']. *)
Definition calls_between (w w' : world) : list call :=
  drop (length (evals w)) (evals w').

(** The value of [now] each of these calls was given. *)
Definition nows_between (w w' : world) : list (option value) :=
  (λ c, call_names c !! "now") <$> calls_between w w'.

(** The wording of the specification for [now]: all the calls made by one
    rendering of [t] are given the same value of [now]. *)
Definition one_now_per_render (t : string) (names : option loc) (w : world) : Prop :=
  ∀ x y,
    x ∈ nows_between w (world_after (eval_template t names) w) →
    y ∈ nows_between w (world_after (eval_template t names) w) →
    x = y.

End Template.

(** ** The delimiters as the specification words them

    A region starts at [{{] and ends at the next [}}]; its body is whatever
    lies between, single closing braces included. *)

Module SpecReading.

(** The text before the first [}}] of [s]. *)
Fixpoint before_close (s : string) : option string :=
  match s with
  | EmptyString => None
  | String c r =>
    if PyStr.strip_prefix "}}" s is Some _ then Some EmptyString
    else String c <$> before_close r
  end.

Definition match_at (s : string) : option string :=
  r ← PyStr.strip_prefix "{{" s; before_close r.

Fixpoint scan (s : string) (skip : nat) : list Re.piece :=
  match s with
  | EmptyString => []
  | String c r =>
    match skip with
    | S k => scan r k
    | O =>
      match match_at s with
      | Some body => Re.Region body :: scan r (PyStr.len body + 3)
      | None => Re.Lit c :: scan r 0
      end
    end
  end.

Definition split (s : string) : list Re.piece := scan s 0.

End SpecReading.

(** ** Occurrences of a string in another *)

(** [sub in s] *)
Fixpoint occurs (sub s : string) : bool :=
  if PyStr.strip_prefix sub s is Some _ then true
  else match s with
       | String _ r => occurs sub r
       | EmptyString => false
       end.

(** ** The handler of the function

    [src/filter_rotator_function/filter_rotator.py].  The client of the
    service is an interface, like the libraries of the engine: its answers
    are functions of the calls made so far.  The logger does not act on what
    the handler computes and is left out. *)

(** [bool(v)], as [if v:] takes it. *)
Definition truth (v : value) : bool :=
  match v with
  | VNone => false
  | VBool b => b
  | VInt n => negb (bool_decide (n = 0))
  | VFloat x => match x with S754_zero _ => false | _ => true end
  | VStr s => negb (bool_decide (s = EmptyString))
  | VDate _ | VTime _ | VDateTime _ => true
  | VTimedelta d => negb (bool_decide (d = TimeDelta 0 0 0))
  end.

(** [d[k]] *)
Definition getitem (d : gmap string value) (k : string) : result value :=
  match d !! k with
  | Some v => Ok v
  | None => Raise (OtherError "KeyError")
  end.

(** The calls of the methods of the client, with their keyword arguments. *)
Inductive api_call :=
| ListFilters (datasetGroupArn : value) (maxResults : Z)
| DeleteFilter (filterArn : value)
| CreateFilter (datasetGroupArn : value) (filterExpression name : string).

Class Personalize := {
  (** [personalize.list_filters(...)['Filters']], given the calls before *)
  list_filters : list api_call → value → Z → result (list (gmap string value));
  (** [personalize.delete_filter(filterArn=...)] *)
  delete_filter : list api_call → value → result unit;
  (** [personalize.create_filter(...)] *)
  create_filter : list api_call → value → string → string → result unit;
  (** the truth value of [eval_expression(template, {'filter': filter})]:
      the dictionary bound to [filter] is not one of the values of the
      engine as modelled here, so that the evaluation is taken as it comes *)
  delete_match : value → gmap string value → M bool
}.

(** The world of the handler: that of the engine, and the calls of the
    client so far. *)
Record cloud := Cloud {
  engine : world;
  api_calls : list api_call
}.

Definition Act (A : Type) : Type := cloud → result A * cloud.

#[global] Instance Act_ret : MRet Act := λ A a c, (Ok a, c).
#[global] Instance Act_bind : MBind Act := λ A B k m c,
  match m c with
  | (Ok a, c') => k a c'
  | (Raise e, c') => (Raise e, c')
  end.

(** A result or an exception of a computation without effect. *)
Definition pure {A} (r : result A) : Act A := λ c, (r, c).

(** A computation of the engine, run in the world of the handler. *)
Definition in_engine {A} (m : M A) : Act A := λ c,
  let '(r, w) := m (engine c) in (r, Cloud w (api_calls c)).

(** A call of the client: it is made, then answered. *)
Definition client {A} (call : api_call) (answer : list api_call → result A) : Act A :=
  λ c, (answer (api_calls c), Cloud (engine c) (api_calls c ++ [call])).

Section Handler.
Context `{Externals} `{Personalize}.

(** [eval_template(template)] for a value of the event: [re.sub] takes
    strings. *)
Definition render_template (template : value) : Act string :=
  match template with
  | VStr s => in_engine (eval_template s None)
  | _ => pure (Raise TypeError)
  end.

(** [[
    for filter in filters_response['Filters']:
        if filter['name'] == current_filter_name:
            current_filter_exists = True
        elif delete_filter_match_template:
            delete_match = eval_expression(delete_filter_match_template,
                                           {'filter': filter})
            if delete_match:
                personalize.delete_filter(filterArn = filter['filterArn'])
    ]]
    with the flag [current_filter_exists] passed along. *)
Fixpoint rotate (current_filter_name : string) (delete_filter_match_template : value)
    (filters : list (gmap string value)) (current_filter_exists : bool) : Act bool :=
  match filters with
  | [] => mret current_filter_exists
  | filter :: rest =>
    name ← pure (getitem filter "name");
    if bool_decide (name = VStr current_filter_name)
    then rotate current_filter_name delete_filter_match_template rest true
    else if truth delete_filter_match_template
    then
      matched ← in_engine (delete_match delete_filter_match_template filter);
      (if matched : bool
       then arn ← pure (getitem filter "filterArn");
            client (DeleteFilter arn) (λ calls, delete_filter calls arn)
       else mret ());;
      rotate current_filter_name delete_filter_match_template rest
             current_filter_exists
    else rotate current_filter_name delete_filter_match_template rest
                current_filter_exists
  end.

(** [[
    def lambda_handler(event, _):
        dataset_group_arn = event["datasetGroupArn"]
        current_filter_name_template = event["currentFilterNameTemplate"]
        current_filter_expression_template = event["currentFilterExpressionTemplate"]
        delete_filter_match_template = event["deleteFilterMatchTemplate"]
        current_filter_name = eval_template(current_filter_name_template)
        current_filter_exists = False
        filters_response = personalize.list_filters(
            datasetGroupArn = dataset_group_arn, maxResults = 100)
        for filter in filters_response['Filters']: ...
        if not current_filter_exists:
            expression = eval_template(current_filter_expression_template)
            response = personalize.create_filter(
                datasetGroupArn = dataset_group_arn,
                filterExpression = expression,
                name = current_filter_name)
    ]] *)
Definition lambda_handler (event : gmap string value) : Act unit :=
  dataset_group_arn ← pure (getitem event "datasetGroupArn");
  current_filter_name_template ← pure (getitem event "currentFilterNameTemplate");
  current_filter_expression_template ←
    pure (getitem event "currentFilterExpressionTemplate");
  delete_filter_match_template ← pure (getitem event "deleteFilterMatchTemplate");
  current_filter_name ← render_template current_filter_name_template;
  filters ← client (ListFilters dataset_group_arn 100)
                   (λ calls, list_filters calls dataset_group_arn 100);
  current_filter_exists ←
    rotate current_filter_name delete_filter_match_template filters false;
  if current_filter_exists : bool then mret ()
  else
    expression ← render_template current_filter_expression_template;
    client (CreateFilter dataset_group_arn expression current_filter_name)
           (λ calls, create_filter calls dataset_group_arn expression
                                   current_filter_name).

(** The calls of the client made between two worlds of the handler. *)
Definition api_calls_between (c c' : cloud) : list api_call :=
  drop (length (api_calls c)) (api_calls c').

(** A listed filter has the name [n]. *)
Definition named (n : string) (filter : gmap string value) : Prop :=
  filter !! "name" = Some (VStr n).

(** A call that deletes, at the match template [template], a filter of the
    listing [filters] that is not named [current]. *)
Definition deletion_of (current : string) (template : value)
    (filters : list (gmap string value)) (x : api_call) : Prop :=
  ∃ filter arn,
    x = DeleteFilter arn ∧ filter ∈ filters
    ∧ filter !! "filterArn" = Some arn ∧ ¬ named current filter
    ∧ truth template = true
    ∧ ∃ w, result_of (delete_match template filter) w = Ok true.

End Handler.

Definition is_list (x : api_call) : bool :=
  match x with ListFilters _ _ => true | _ => false end.

Definition is_delete (x : api_call) : bool :=
  match x with DeleteFilter _ => true | _ => false end.

Definition is_create (x : api_call) : bool :=
  match x with CreateFilter _ _ _ => true | _ => false end.

(** ** The registry as the specification words it

    One mapping from a name to a value or a function: the base set, then
    the functions of the module and [now], then the names of the caller,
    each laid over what came before. *)


Section SpecRegistry.
Context `{Externals}.




End SpecRegistry.

(** ** Names bound to shared objects

    The values above are immutable, and an evaluator that is given tables
    of them can change nothing.  A caller can also bind a name to an object
    that others hold and that can be changed, as the handler does with the
    dictionary of a filter; [simple_eval] calls the methods of the objects
    an expression reaches.  Here an entry of a dictionary is an immutable
    value or a reference to a dictionary of the heap, and [simple_eval] is
    given the heap and returns the heap it leaves. *)

Module Shared.

Inductive object :=
| Immutable (v : value)
| Dict (l : loc).

#[global] Instance object_eq_dec : EqDecision object.
Proof. solve_decision. Defined.

Abbreviation store := (gmap loc (gmap string object)).

Record world := World {
  heap : store;
  clock_reads : nat
}.

Class Evaluator := {
  (** [simple_eval(expr, functions=..., names=...)], with the dictionary
      object [names] in the heap *)
  simple_eval : string → gmap string callable → loc → store → result object * store;
  (** [str] of a dictionary *)
  dict_str : store → loc → string
}.

Definition deref (w : world) (l : loc) : gmap string object :=
  default ∅ (heap w !! l).

(** [d.copy()] *)
Definition dict_copy (d : gmap string object) (w : world) : loc * world :=
  let l := fresh (dom (heap w)) in
  (l, World (<[l := d]> (heap w)) (clock_reads w)).

(** [target.update(k=v)] *)
Definition dict_update_kw (target : loc) (k : string) (v : object) (w : world)
    : world :=
  World (<[target := <[k := v]> (deref w target)]> (heap w)) (clock_reads w).

(** [target.update(source)]: the entries of [source], references
    included, are written into [target]; [source] is only read. *)
Definition dict_update (target : loc) (source : option loc) (w : world) : world :=
  match source with
  | Some l =>
    World (<[target := deref w l ∪ deref w target]> (heap w)) (clock_reads w)
  | None => w
  end.

(** The truth value of [names] in [if names:]. *)
Definition truthy (names : option loc) (w : world) : bool :=
  match names with
  | Some l => negb (bool_decide (deref w l = ∅))
  | None => false
  end.

Section Engine.
Context `{Externals} `{Evaluator}.

Definition datetime_now (w : world) : datetime * world :=
  (wall_clock (clock_reads w), World (heap w) (S (clock_reads w))).

Definition call_simple_eval (s : string) (functions : gmap string callable)
    (names_combined : loc) (w : world) : result object * world :=
  let '(r, h) := simple_eval s functions names_combined (heap w) in
  (r, World h (clock_reads w)).

(** [eval_expression], statement by statement: the copy of the default
    names, [now], the names of the caller under [if names:], the call. *)
Definition eval_expression (s : string) (names : option loc) (w : world)
    : result object * world :=
  let functions := domain_functions ∪ DEFAULT_FUNCTIONS in
  let '(names_combined, w) := dict_copy (Immutable <$> DEFAULT_NAMES) w in
  let '(now, w) := datetime_now w in
  let w := dict_update_kw names_combined "now" (Immutable (VDateTime now)) w in
  let w := if truthy names w then dict_update names_combined names w else w in
  call_simple_eval s functions names_combined w.

Definition object_str (w : world) (o : object) : string :=
  match o with
  | Immutable v => py_str v
  | Dict l => dict_str (heap w) l
  end.

(** The callback of [re.sub] on the pieces of the template, from left to
    right. *)
Fixpoint render (names : option loc) (ps : list Re.piece) (w : world)
    : result (list string) * world :=
  match ps with
  | [] => (Ok [], w)
  | Re.Lit c :: ps =>
    match render names ps w with
    | (Ok outs, w') => (Ok (String c "" :: outs), w')
    | (Raise e, w') => (Raise e, w')
    end
  | Re.Region body :: ps =>
    match eval_expression body names w with
    | (Ok v, w1) =>
      match render names ps w1 with
      | (Ok outs, w2) => (Ok (object_str w1 v :: outs), w2)
      | (Raise e, w2) => (Raise e, w2)
      end
    | (Raise e, w1) => (Raise e, w1)
    end
  end.

Definition eval_template (s : string) (names : option loc) (w : world)
    : result string * world :=
  match render names (Re.split s) w with
  | (Ok outs, w') => (Ok (Re.join outs), w')
  | (Raise e, w') => (Raise e, w')
  end.

(** The evaluation of the expression [e] by [simple_eval] leaves the
    dictionary at [l] as it finds it. *)
Definition leaves (l : loc) (e : string) : Prop :=
  ∀ functions names_combined h,
    (simple_eval e functions names_combined h).2 !! l = h !! l.

(** The wording of the specification: the dictionary the caller passes
    has the same entries after the call as before. *)
Definition caller_mapping_unchanged (s : string) (l : loc) (w : world) : Prop :=
  heap (eval_expression s (Some l) w).2 !! l = heap w !! l.

End Engine.
End Shared.

(** ** A test environment

    One instance of [Externals] to run the module on: a clock that starts at
    2024-01-01 00:00:00 and advances by a quarter of a second per reading, the
    local time zone UTC, and fragments of the libraries: of [simpleeval], the
    names, the integer and string literals and the calls of registered
    functions on such arguments; of [dateutil], the ISO dates; of [strftime],
    the numeric directives.  What lies outside a fragment raises
    [NotModelled]. *)

Module TestEnv.

(** *** Calendar *)

Definition days_from_civil (y m d : Z) : Z :=
  let y' := if m <=? 2 then y - 1 else y in
  let era := y' / 400 in
  let yoe := y' - era * 400 in
  let doy := (153 * (if m <=? 2 then m + 9 else m - 3) + 2) / 5 + d - 1 in
  let doe := yoe * 365 + yoe / 4 - yoe / 100 + doy in
  era * 146097 + doe - 719468.

Definition civil_from_days (z : Z) : date :=
  let z := z + 719468 in
  let era := z / 146097 in
  let doe := z - era * 146097 in
  let yoe := (doe - doe / 1460 + doe / 36524 - doe / 146096) / 365 in
  let doy := doe - (365 * yoe + yoe / 4 - yoe / 100) in
  let mp := (5 * doy + 2) / 153 in
  let d := doy - (153 * mp + 2) / 5 + 1 in
  let m := if mp <? 10 then mp + 3 else mp - 9 in
  Date (yoe + era * 400 + (if m <=? 2 then 1 else 0)) m d.

Definition valid_date (d : date) : bool :=
  bool_decide (1 ≤ year d ≤ 9999)
  && bool_decide (civil_from_days (days_from_civil (year d) (month d) (day d)) = d).

Definition valid_time (t : time) : bool :=
  bool_decide (0 ≤ hour t < 24 ∧ 0 ≤ minute t < 60 ∧ 0 ≤ second t < 60
               ∧ 0 ≤ microsecond t < 1000000).

(** Microseconds since 1970-01-01 00:00:00, and back. *)
Definition micros_of_datetime (d : datetime) : Z :=
  let dd := dt_date d in
  let t := dt_time d in
  (((days_from_civil (year dd) (month dd) (day dd) * 24 + hour t) * 60
    + minute t) * 60 + second t) * 1000000 + microsecond t.

Definition datetime_of_micros (us : Z) : datetime :=
  let s := us / 1000000 in
  let m := s / 60 in
  let h := m / 60 in
  DateTime (civil_from_days (h / 24))
           (Time (h mod 24) (m mod 60) (s mod 60) (us mod 1000000)).

Definition clock (k : nat) : datetime :=
  datetime_of_micros (1704067200000000 + 250000 * Z.of_nat k).

(** *** Floats *)

Definition float_of_Z (n : Z) : spec_float := binary_normalize 53 1024 n 0 false.

(** [seconds + microsecond / 1e6], in UTC. *)
Definition timestamp (d : datetime) : result spec_float :=
  let us := micros_of_datetime d in
  Ok (SFadd 53 1024 (float_of_Z (us / 1000000))
            (SFdiv 53 1024 (float_of_Z (us mod 1000000)) (float_of_Z 1000000))).

(** The shortest decimal that reads back as the float [m * 2^e]: the
    digits as a number [d] and the exponent [k] of [d * 10^k].  All
    quantities are numerators over the common denominator [den]. *)
Definition pow10 (n : Z) : Z := 10 ^ n.

(** [d * 10^k] against [n / den], as a comparison of integers. *)
Definition cmp_dec (d k n den : Z) : comparison :=
  if 0 <=? k then (d * pow10 k * den ?= n) else (d * den ?= n * pow10 (- k)).

Definition floor_dec (k n den : Z) : Z :=
  if 0 <=? k then n / (den * pow10 k) else (n * pow10 (- k)) / den.

Fixpoint strip_zeros (fuel : nat) (d k : Z) : Z * Z :=
  match fuel with
  | O => (d, k)
  | S f => if bool_decide (d ≠ 0 ∧ d mod 10 = 0) then strip_zeros f (d / 10) (k + 1)
           else (d, k)
  end.

Definition shortest (m : positive) (e : Z) : Z * Z :=
  let s := Z.max 0 (2 - e) in
  let den := 2 ^ s in
  let v := Z.pos m * 2 ^ (e + s) in
  let up := 2 ^ (e + s - 1) in
  let down := if bool_decide (m = 4503599627370496%positive ∧ -1074 < e)
              then 2 ^ (e + s - 2) else up in
  let lo := v - down in
  let hi := v + up in
  let closed := Z.even (Z.pos m) in
  let inside d k :=
    match cmp_dec d k lo den, cmp_dec d k hi den with
    | Gt, Lt => true
    | Eq, Lt | Gt, Eq | Eq, Eq => closed
    | _, _ => false
    end in
  (* the decimal exponent of the leading digit *)
  let p0 := ((Z.log2 v - s) * 1233) / 4096 in
  let p1 := if cmp_dec 1 p0 v den is Gt then p0 - 1 else p0 in
  let p := if cmp_dec 1 (p1 + 1) v den is Gt then p1 else p1 + 1 in
  let try n :=
    let k := p - n + 1 in
    let d := floor_dec k v den in
    (* the nearer of [d] and [d + 1] that reads back *)
    let below := inside d k in
    let above := inside (d + 1) k in
    let nearer_above :=
      (* (d + 1) * 10^k - v < v - d * 10^k *)
      if 0 <=? k then (2 * d + 1) * pow10 k * den <? 2 * v
      else (2 * d + 1) * den <? 2 * v * pow10 (- k) in
    if below && above then Some (if nearer_above then d + 1 else d, k)
    else if below then Some (d, k)
    else if above then Some (d + 1, k)
    else None in
  let fix search (n : Z) (fuel : nat) : Z * Z :=
    match fuel with
    | O => (floor_dec (p - 16) v den, p - 16)
    | S f => match try n with
             | Some (d, k) => strip_zeros 20 d k
             | None => search (n + 1) f
             end
    end in
  search 1 17%nat.

(** [repr] of a float: fixed notation while the decimal point falls within
    the first 16 digits and no further left than four zeros, exponent
    notation otherwise. *)
Definition repr_finite (m : positive) (e : Z) : string :=
  let '(d, k) := shortest m e in
  let ds := pretty d in
  let n := Z.of_nat (PyStr.len ds) in
  let decpt := k + n in
  if bool_decide (-4 < decpt ≤ 16) then
    if decpt <=? 0 then "0." +:+ PyStr.zeros (Z.to_nat (- decpt)) +:+ ds
    else if n <=? decpt then ds +:+ PyStr.zeros (Z.to_nat (decpt - n)) +:+ ".0"
    else PyStr.take (Z.to_nat decpt) ds +:+ "." +:+ PyStr.drop (Z.to_nat decpt) ds
  else
    let x := decpt - 1 in
    PyStr.take 1 ds
    +:+ (if n <=? 1 then "" else "." +:+ PyStr.drop 1 ds)
    +:+ "e" +:+ (if x <? 0 then "-" else "+") +:+ PyStr.zfill 2 (Z.abs x).

Definition repr (x : spec_float) : string :=
  match x with
  | S754_zero s => if s then "-0.0" else "0.0"
  | S754_infinity s => if s then "-inf" else "inf"
  | S754_nan => "nan"
  | S754_finite s m e => (if s then "-" else "") +:+ repr_finite m e
  end.

(** *** [strftime]: the numeric directives *)

Definition date_of (v : value) : date :=
  match v with
  | VDate d => d
  | VDateTime d => dt_date d
  | _ => Date 1900 1 1
  end.

Definition time_of (v : value) : time :=
  match v with
  | VTime t => t
  | VDateTime d => dt_time d
  | _ => Time 0 0 0 0
  end.

Definition directive (v : value) (c : ascii) : result string :=
  match c with
  | "Y"%char => Ok (pretty (year (date_of v)))
  | "m"%char => Ok (PyStr.zfill 2 (month (date_of v)))
  | "d"%char => Ok (PyStr.zfill 2 (day (date_of v)))
  | "H"%char => Ok (PyStr.zfill 2 (hour (time_of v)))
  | "M"%char => Ok (PyStr.zfill 2 (minute (time_of v)))
  | "S"%char => Ok (PyStr.zfill 2 (second (time_of v)))
  | "f"%char => Ok (PyStr.zfill 6 (microsecond (time_of v)))
  | "%"%char => Ok "%"
  | _ => Raise (NotModelled "strftime directive")
  end.

Fixpoint format (v : value) (p : string) : result string :=
  match p with
  | EmptyString => Ok EmptyString
  | String "%" (String c r) =>
    x ← directive v c; y ← format v r; Ok (x +:+ y)
  | String c r => String c <$> format v r
  end.

(** *** [dateutil]: dates written [YYYY-MM-DD], with or without a time
    [HH:MM:SS] after a [T] or a blank *)

Definition is_digit (c : ascii) : bool :=
  bool_decide (48 ≤ nat_of_ascii c ≤ 57)%nat.

Fixpoint all_chars (p : ascii → bool) (s : string) : bool :=
  match s with
  | EmptyString => true
  | String c r => p c && all_chars p r
  end.

Fixpoint number_from (acc : Z) (s : string) : Z :=
  match s with
  | EmptyString => acc
  | String c r => number_from (10 * acc + (Z.of_nat (nat_of_ascii c) - 48)) r
  end.

(** The number a string of [n] digits at the head of [s] denotes, and the
    rest. *)
Definition digits (n : nat) (s : string) : option (Z * string) :=
  let d := PyStr.take n s in
  if bool_decide (PyStr.len d = n) && all_chars is_digit d
  then Some (number_from 0 d, PyStr.drop n s) else None.

Definition expect (c : ascii) (s : string) : option string :=
  match s with
  | String d r => if Ascii.eqb c d then Some r else None
  | EmptyString => None
  end.

Definition iso_date (s : string) : option (date * string) :=
  '(y, s) ← digits 4 s; s ← expect "-" s;
  '(m, s) ← digits 2 s; s ← expect "-" s;
  '(d, s) ← digits 2 s; Some (Date y m d, s).

Definition iso_time (s : string) : option (time * string) :=
  '(h, s) ← digits 2 s; s ← expect ":" s;
  '(m, s) ← digits 2 s; s ← expect ":" s;
  '(x, s) ← digits 2 s; Some (Time h m x 0, s).

Definition checked (d : date) (t : time) : result datetime :=
  if valid_date d && valid_time t then Ok (DateTime d t) else Raise ParserError.

Definition parse (s : string) : result datetime :=
  match iso_date (PyStr.strip s) with
  | Some (d, EmptyString) => checked d (Time 0 0 0 0)
  | Some (d, String c r) =>
    if bool_decide (c = "T"%char ∨ c = " "%char) then
      match iso_time r with
      | Some (t, EmptyString) => checked d t
      | _ => Raise (NotModelled "date string")
      end
    else Raise (NotModelled "date string")
  | None => Raise (NotModelled "date string")
  end.

(** *** [simpleeval]: names, literals, calls *)

Definition is_ident_start (c : ascii) : bool :=
  let n := nat_of_ascii c in
  bool_decide (65 ≤ n ≤ 90 ∨ 97 ≤ n ≤ 122 ∨ n = 95)%nat.

Definition is_ident_char (c : ascii) : bool := is_ident_start c || is_digit c.

Definition is_identifier (s : string) : bool :=
  match s with
  | String c r => is_ident_start c && all_chars is_ident_char r
  | EmptyString => false
  end.

Definition keywords : list string :=
  ["and"; "as"; "assert"; "async"; "await"; "break"; "class"; "continue";
   "def"; "del"; "elif"; "else"; "except"; "finally"; "for"; "from";
   "global"; "if"; "import"; "in"; "is"; "lambda"; "nonlocal"; "not"; "or";
   "pass"; "raise"; "return"; "try"; "while"; "with"; "yield"].

(** An operator that needs a right operand. *)
Definition is_operator (c : ascii) : bool :=
  bool_decide (c ∈ ["+"; "-"; "*"; "/"; "%"; "<"; ">"; "="; "&"; "|"; "^";
                    "~"; "@"]%char).

Definition last_char (s : string) : option ascii :=
  match String.rev s with String c _ => Some c | EmptyString => None end.

(** The text before the first [c] of [s] and the text after it. *)
Fixpoint cut_at (c : ascii) (s : string) : option (string * string) :=
  match s with
  | EmptyString => None
  | String d r =>
    if Ascii.eqb d c then Some (EmptyString, r)
    else '(a, b) ← cut_at c r; Some (String d a, b)
  end.

(** The arguments of a call, cut at the commas that lie outside brackets
    and quotes; [None] when brackets or quotes do not pair up, or on a
    backslash.  [cur] is the argument being read, reversed. *)
Fixpoint cut_args (s : string) (depth : nat) (quote : option ascii)
    (cur : string) : option (list string) :=
  match s with
  | EmptyString =>
    match depth, quote with
    | O, None => Some [String.rev cur]
    | _, _ => None
    end
  | String c r =>
    if Ascii.eqb c "\" then None else
    match quote with
    | Some q =>
      cut_args r depth (if Ascii.eqb c q then None else quote) (String c cur)
    | None =>
      if bool_decide (c ∈ ["'"; "034"]%char)
      then cut_args r depth (Some c) (String c cur)
      else if bool_decide (c ∈ ["("; "["; "{"]%char)
      then cut_args r (S depth) None (String c cur)
      else if bool_decide (c ∈ [")"; "]"; "}"]%char)
      then match depth with
           | O => None
           | S k => cut_args r k None (String c cur)
           end
      else if Ascii.eqb c "," && bool_decide (depth = O)
      then cons (String.rev cur) <$> cut_args r depth None EmptyString
      else cut_args r depth None (String c cur)
    end
  end.

Definition arguments (inner : string) : option (list string) :=
  if bool_decide (PyStr.strip inner = EmptyString) then Some []
  else cut_args inner 0 None EmptyString.

(** A string literal without prefix and escapes: its contents. *)
Definition string_literal (e : string) : option string :=
  match e with
  | String q r =>
    if bool_decide (q ∈ ["'"; "034"]%char) then
      match String.rev r with
      | String q' body' =>
        let body := String.rev body' in
        if Ascii.eqb q q' && PyStr.lacks q body && PyStr.lacks "\" body
           && PyStr.lacks "010" body
        then Some body else None
      | EmptyString => None
      end
    else None
  | EmptyString => None
  end.

(** A decimal integer literal: digits, without a leading zero unless all
    digits are zero. *)
Definition int_literal (e : string) : option (result value) :=
  match e with
  | String c r =>
    if all_chars is_digit e then
      if Ascii.eqb c "0" && negb (all_chars (Ascii.eqb "0") r)
      then Some (Raise SyntaxError)
      else Some (Ok (VInt (number_from 0 e)))
    else None
  | EmptyString => None
  end.

(** A minus sign before an integer literal. *)
Definition negated_literal (e : string) : option (result value) :=
  match e with
  | String "-" r =>
    match int_literal (PyStr.strip r) with
    | Some (Ok (VInt n)) => Some (Ok (VInt (- n)))
    | other => other
    end
  | _ => None
  end.

(** A name: the constants, then the table of names, then the table of
    functions. *)
Definition name (functions : gmap string callable)
    (names : gmap string value) (e : string) : result value :=
  if bool_decide (e = "True") then Ok (VBool true)
  else if bool_decide (e = "False") then Ok (VBool false)
  else if bool_decide (e = "None") then Ok VNone
  else if bool_decide (e ∈ keywords) then Raise (NotModelled "keyword")
  else match names !! e with
       | Some v => Ok v
       | None =>
         match functions !! e with
         | Some _ => Raise (NotModelled "function as a value")
         | None => Raise (NameNotDefined e)
         end
       end.

(** A call [f(a, ...)]: the function is looked up in the table of
    functions, then the arguments are evaluated from left to right. *)
Definition call_parts (e : string) : option (string * list string) :=
  match String.rev e with
  | String ")" body' =>
    '(f, inner) ← cut_at "(" (String.rev body');
    let f := PyStr.strip f in
    if is_identifier f && negb (bool_decide (f ∈ keywords))
    then args ← arguments inner; Some (f, args)
    else None
  | _ => None
  end.

Fixpoint eval (fuel : nat) (functions : gmap string callable)
    (names : gmap string value) (expr : string) : result value :=
  let e := PyStr.strip expr in
  if is_identifier e then name functions names e
  else if int_literal e is Some r then r
  else if negated_literal e is Some r then r
  else if string_literal e is Some body then Ok (VStr body)
  else if bool_decide (from_option is_operator false (last_char e))
          && PyStr.lacks "#" e
  then Raise SyntaxError
  else match call_parts e, fuel with
       | Some (f, args), S fuel' =>
         match functions !! f with
         | Some func =>
           vs ← mapM (eval fuel' functions names) args; func vs
         | None => Raise (FunctionNotDefined f)
         end
       | _, _ => Raise (NotModelled "expression")
       end.

Definition evaluate (expr : string) (functions : gmap string callable)
    (names : gmap string value) : result value :=
  eval (PyStr.len expr) functions names expr.

(** *** The default tables of [simpleeval] *)

(** [int(v)] *)
Definition py_int : callable := unary (λ v,
  match v with
  | VInt n => Ok (VInt n)
  | VBool b => Ok (VInt (if b then 1 else 0))
  | VFloat (S754_zero _) => Ok (VInt 0)
  | VFloat (S754_finite s m e) =>
    let a := if 0 <=? e then Z.pos m * 2 ^ e else Z.pos m / 2 ^ (- e) in
    Ok (VInt (if s then - a else a))
  | VFloat (S754_infinity _) => Raise OverflowError
  | VFloat S754_nan => Raise ValueError
  | VStr s =>
    let t := PyStr.strip s in
    let '(neg, d) := match t with
                     | String "-" r => (true, r)
                     | String "+" r => (false, r)
                     | _ => (false, t)
                     end in
    if negb (bool_decide (d = EmptyString)) && all_chars is_digit d
    then Ok (VInt (if neg then - number_from 0 d else number_from 0 d))
    else if PyStr.lacks "_" d then Raise ValueError
    else Raise (NotModelled "digit separators")
  | _ => Raise TypeError
  end).

(** [float(v)] *)
Definition py_float : callable := unary (λ v,
  match v with
  | VFloat x => Ok (VFloat x)
  | VInt n =>
    match float_of_Z n with
    | S754_infinity _ => Raise OverflowError
    | x => Ok (VFloat x)
    end
  | VBool b => Ok (VFloat (float_of_Z (if b then 1 else 0)))
  | VStr _ => Raise (NotModelled "float of a string")
  | _ => Raise TypeError
  end).

Definition default_functions : gmap string callable :=
  list_to_map [
    ("rand", (λ _, Raise (NotModelled "random numbers")) : callable);
    ("randint", (λ _, Raise (NotModelled "random numbers")) : callable);
    ("int", py_int);
    ("float", py_float);
    ("str", unary (λ v, Ok (VStr (str_with repr v))))
  ].

Definition default_names : gmap string value :=
  list_to_map [("True", VBool true); ("False", VBool false); ("None", VNone)].

#[export] Instance externals : Externals := {|
  DEFAULT_FUNCTIONS := default_functions;
  DEFAULT_NAMES := default_names;
  simple_eval := evaluate;
  dateutil_parse := parse;
  datetime_timestamp := timestamp;
  strftime := format;
  wall_clock := clock;
  float_repr := repr
|}.

(** The world before anything has run, and one in which the caller holds a
    dictionary at location 0. *)
Definition start : world := World ∅ 0 [].

Definition with_names (d : gmap string value) : world := World {[ 0%nat := d ]} 0 [].

End TestEnv.

(** ** A test service

    A client over a store of filters that the calls made so far have
    shaped, to run the handler in the test environment.  Where the code
    binds the dictionary of a filter to the one name [filter], the test
    service binds each field of the filter to a name of its own: the match
    template [starts_with(name, 'old')] stands for
    [starts_with(filter['name'], 'old')]. *)

Module TestCloud.
Import TestEnv.

Definition summary (name arn : string) : gmap string value :=
  list_to_map [("name", VStr name); ("filterArn", VStr arn);
               ("status", VStr "ACTIVE")].

Definition initial : list (gmap string value) :=
  [summary "include-2023-12-30" "arn:f/include-2023-12-30";
   summary "include-2023-12-31" "arn:f/include-2023-12-31";
   summary "exclude-purchased" "arn:f/exclude-purchased"].

Definition apply_call (store : list (gmap string value)) (c : api_call)
    : list (gmap string value) :=
  match c with
  | ListFilters _ _ => store
  | DeleteFilter arn =>
    filter (λ f, f !! "filterArn" ≠ Some arn) store
  | CreateFilter _ _ name => store ++ [summary name ("arn:f/" +:+ name)]
  end.

Definition store_after (calls : list api_call) : list (gmap string value) :=
  foldl apply_call initial calls.

Definition has_name (n : string) (store : list (gmap string value)) : bool :=
  bool_decide (Exists (λ f, f !! "name" = Some (VStr n)) store).

Definition has_arn (arn : value) (store : list (gmap string value)) : bool :=
  bool_decide (Exists (λ f, f !! "filterArn" = Some arn) store).

#[export] Instance personalize : Personalize := {|
  list_filters calls _ _ := Ok (store_after calls);
  delete_filter calls arn :=
    if has_arn arn (store_after calls) then Ok ()
    else Raise (OtherError "ResourceNotFoundException");
  create_filter calls _ _ name :=
    if has_name name (store_after calls)
    then Raise (OtherError "ResourceAlreadyExistsException")
    else Ok ();
  delete_match template filter :=
    match template with
    | VStr s =>
      l ← dict_copy filter;
      v ← eval_expression s (Some l);
      mret (truth v)
    | _ => λ w, (Raise (AttributeError "strip"), w)
    end
|}.

(** The event of a daily rotation. *)
Definition event (name expression delete : value) : gmap string value :=
  list_to_map [("datasetGroupArn", VStr "arn:dsg/shop");
               ("currentFilterNameTemplate", name);
               ("currentFilterExpressionTemplate", expression);
               ("deleteFilterMatchTemplate", delete)].

(** The handler before any call, with the clock at its first reading. *)
Definition fresh_cloud : cloud := Cloud start [].

(** The event of a rotation by the day, on the first of January 2024: the
    filters of the two days before match the template. *)
Definition rotation : gmap string value :=
  event (VStr "include-{{datetime_format(now,'%Y-%m-%d')}}")
        (VStr "INCLUDE ItemID WHERE Items.day IN ({{int(unixtime(now))}})")
        (VStr "starts_with(name, 'include-')").

(** The event of a filter that is there, without a match template and with
    an expression template that is no expression. *)
Definition steady : gmap string value :=
  event (VStr "exclude-purchased") (VStr "{{1 +}}") VNone.

End TestCloud.

(** ** A test evaluator over shared objects

    The fragment of [simpleeval] of the test environment over the names
    that are bound to immutable values, and besides it the call of the
    method [clear] of a dictionary bound to a name, which empties the
    dictionary and returns [None].  A dictionary read as a value lies
    outside the fragment. *)

Module TestShared.
Import TestEnv Shared.

(** The name [n] of an expression [n.clear()]. *)
Definition clear_call (expr : string) : option string :=
  let e := PyStr.strip expr in
  let n := PyStr.take (PyStr.len e - 8) e in
  if PyStr.endswith e ".clear()" && is_identifier n then Some n else None.

Definition immutable_part (d : gmap string object) : gmap string value :=
  omap (λ o, match o with Immutable v => Some v | Dict _ => None end) d.

Definition evaluate (expr : string) (functions : gmap string callable)
    (names : loc) (h : store) : result object * store :=
  let d := default ∅ (h !! names) in
  match clear_call expr with
  | Some n =>
    match d !! n with
    | Some (Dict l) => (Ok (Immutable VNone), <[l := ∅]> h)
    | Some (Immutable _) => (Raise (AttributeError "clear"), h)
    | None => (Raise (NameNotDefined n), h)
    end
  | None =>
    (match TestEnv.evaluate expr functions (immutable_part d) with
     | Ok v => Ok (Immutable v)
     | Raise (NameNotDefined n) =>
       if d !! n is Some (Dict _) then Raise (NotModelled "dictionary as a value")
       else Raise (NameNotDefined n)
     | Raise e => Raise e
     end,
     h)
  end.

#[export] Instance evaluator : Evaluator := {|
  simple_eval := evaluate;
  dict_str := λ _ _, "{...}"
|}.

(** A caller whose dictionary is bound to a name of its own, and one who
    binds the dictionary of a filter, as the handler does. *)
Definition self_bound : world :=
  World {[ 0%nat := {[ "me" := Dict 0%nat ]} ]} 0.

Definition filter_bound : world :=
  World {[ 0%nat := {[ "filter" := Dict 1%nat ]};
           1%nat := {[ "name" := Immutable (VStr "include-2023-12-31") ]} ]} 0.

End TestShared.

(** * Facts *)

(** ** Strings and slices *)

Section StringFacts.
Implicit Types (s t : string) (n : nat).

Lemma str_app_nil_l s : "" +:+ s = s.
Proof. done. Qed.

Lemma str_app_cons c s t : String c s +:+ t = String c (s +:+ t).
Proof. done. Qed.

Lemma str_app_nil_r s : s +:+ "" = s.
Proof. induction s as [|c s IH]; [done|]. by rewrite str_app_cons, IH. Qed.

Lemma str_app_assoc s t u : (s +:+ t) +:+ u = s +:+ (t +:+ u).
Proof. induction s as [|c s IH]; [done|]. by rewrite !str_app_cons, IH. Qed.

Lemma str_len_app s t : PyStr.len (s +:+ t) = (PyStr.len s + PyStr.len t)%nat.
Proof. induction s as [|c s IH]; [done|]. rewrite str_app_cons; simpl. by rewrite IH. Qed.

Lemma str_len_take n s : PyStr.len (PyStr.take n s) = (n `min` PyStr.len s)%nat.
Proof.
  revert s; induction n as [|n IH]; intros [|c s]; simpl; try done.
  by rewrite IH.
Qed.

Lemma str_len_drop n s : PyStr.len (PyStr.drop n s) = (PyStr.len s - n)%nat.
Proof. revert s; induction n as [|n IH]; intros [|c s]; simpl; done. Qed.

Lemma str_take_drop n s : PyStr.take n s +:+ PyStr.drop n s = s.
Proof.
  revert s; induction n as [|n IH]; intros [|c s]; simpl; try done.
  by rewrite str_app_cons, IH.
Qed.

Lemma str_take_all n s : (PyStr.len s ≤ n)%nat → PyStr.take n s = s.
Proof.
  revert s; induction n as [|n IH]; intros [|c s] Hn; simpl in *;
    try done; try lia.
  rewrite IH; [done|lia].
Qed.

Lemma str_drop_0 s : PyStr.drop 0 s = s.
Proof. by destruct s. Qed.

Lemma str_drop_all n s : (PyStr.len s ≤ n)%nat → PyStr.drop n s = "".
Proof.
  revert s; induction n as [|n IH]; intros [|c s] Hn; simpl in *;
    try done; try lia.
  apply IH; lia.
Qed.
End StringFacts.

(** ** [_start] and [_end] *)

Lemma adjust_index_range n i :
  0 ≤ n → 0 ≤ PyStr.adjust_index n i ≤ n.
Proof. intros Hn. unfold PyStr.adjust_index. destruct (Z.ltb_spec i 0); lia. Qed.

Lemma adjust_index_nonneg n i :
  0 ≤ i → PyStr.adjust_index n i = Z.min i n.
Proof. intros Hi. unfold PyStr.adjust_index. destruct (Z.ltb_spec i 0); lia. Qed.

Lemma adjust_index_neg n i :
  i < 0 → PyStr.adjust_index n i = Z.max (i + n) 0.
Proof. intros Hi. unfold PyStr.adjust_index. destruct (Z.ltb_spec i 0); lia. Qed.

(** [s[0:j]] is a prefix and [s[i:]] a suffix of [s]. *)
Lemma getslice_prefix s j :
  PyStr.getslice s (Some 0) (Some j)
  = PyStr.take (Z.to_nat (PyStr.adjust_index (Z.of_nat (PyStr.len s)) j)) s.
Proof.
  unfold PyStr.getslice; cbn [from_option].
  rewrite (adjust_index_nonneg _ 0), Z.min_l, Z.sub_0_r by lia.
  change (Z.to_nat 0) with 0%nat. by rewrite str_drop_0.
Qed.

Lemma getslice_suffix s i :
  PyStr.getslice s (Some i) None
  = PyStr.drop (Z.to_nat (PyStr.adjust_index (Z.of_nat (PyStr.len s)) i)) s.
Proof.
  unfold PyStr.getslice; cbn [from_option].
  pose proof (adjust_index_range (Z.of_nat (PyStr.len s)) i).
  apply str_take_all. rewrite str_len_drop. lia.
Qed.

(** [s[0:n]] keeps the first [n] characters for [n] from 0 on. *)
Lemma start_nonneg s n :
  0 ≤ n → _start s n = PyStr.take (Z.to_nat n) s.
Proof.
  intros Hn. unfold _start. rewrite getslice_prefix, adjust_index_nonneg by done.
  destruct (Z.le_gt_cases n (Z.of_nat (PyStr.len s))).
  - f_equal; lia.
  - rewrite !str_take_all; [done|lia..].
Qed.

(** [s[0:n]] drops the last [-n] characters for a negative [n]. *)
Lemma start_neg s n :
  n < 0 → _start s n = PyStr.take (PyStr.len s - Z.to_nat (- n)) s.
Proof.
  intros Hn. unfold _start. rewrite getslice_prefix, adjust_index_neg by done.
  f_equal. lia.
Qed.

(** [s[-k:]] keeps the last [k] characters for a positive [k]. *)
Lemma end_nonzero s n :
  n ≠ 0 → _end s n = PyStr.drop (PyStr.len s - Z.to_nat (Z.abs n)) s.
Proof.
  intros Hn. unfold _end. rewrite getslice_suffix, adjust_index_neg by lia.
  f_equal. lia.
Qed.

Lemma end_nonzero_length s n :
  n ≠ 0 → Z.of_nat (PyStr.len (_end s n)) = Z.min (Z.abs n) (Z.of_nat (PyStr.len s)).
Proof. intros Hn. rewrite end_nonzero, str_len_drop by done. lia. Qed.

(** [s[-0:]] is [s[0:]], the whole string. *)
Lemma end_zero s : _end s 0 = s.
Proof.
  unfold _end. rewrite getslice_suffix.
  change (- Z.abs 0) with 0. rewrite adjust_index_nonneg, Z.min_l by lia.
  apply str_drop_0.
Qed.

(** ** The pattern *)

Section PatternFacts.
Implicit Types (s t body rest : string) (c d : ascii).

Lemma strip_prefix_iff (p : string) s r :
  PyStr.strip_prefix p s = Some r ↔ s = p +:+ r.
Proof.
  revert s; induction p as [|c p IH]; intros s; simpl.
  - rewrite str_app_nil_l. split; congruence.
  - rewrite str_app_cons. destruct s as [|d s]; [split; congruence|].
    destruct (Ascii.eqb_spec c d) as [->|Hne]; [|split; congruence].
    rewrite IH. split; congruence.
Qed.

Lemma strip_prefix_app (p : string) r : PyStr.strip_prefix p (p +:+ r) = Some r.
Proof. by apply strip_prefix_iff. Qed.

Lemma lacks_app c s t :
  PyStr.lacks c (s +:+ t) = PyStr.lacks c s && PyStr.lacks c t.
Proof.
  induction s as [|d s IH]; [done|].
  rewrite str_app_cons; simpl. rewrite IH. by destruct (Ascii.eqb d c).
Qed.

Lemma span_not_spec c s :
  s = (Re.span_not c s).1 +:+ (Re.span_not c s).2
  ∧ PyStr.lacks c (Re.span_not c s).1 = true.
Proof.
  induction s as [|d s (IH1 & IH2)]; simpl; [done|].
  destruct (Ascii.eqb_spec d c) as [->|Hne]; simpl; [done|].
  destruct (Re.span_not c s) as [run rest]; simpl in *.
  rewrite str_app_cons, <- IH1. split; [done|].
  rewrite IH2. by destruct (Ascii.eqb_spec d c).
Qed.

Lemma span_not_app c body rest :
  PyStr.lacks c body = true →
  Re.span_not c (body +:+ String c rest) = (body, String c rest).
Proof.
  induction body as [|d body IH]; intros Hl.
  - rewrite str_app_nil_l; simpl. by rewrite Ascii.eqb_refl.
  - rewrite str_app_cons; simpl in *.
    destruct (Ascii.eqb d c); [done|]. by rewrite IH.
Qed.

(** The pattern matches at the head of [s] exactly when [s] begins with
    two opening braces, a run without closing brace and two closing
    braces; group 1 is the run. *)
Lemma match_at_iff s body :
  Re.match_at s = Some body
  ↔ ∃ rest, s = "{{" +:+ body +:+ "}}" +:+ rest ∧ PyStr.lacks "}" body = true.
Proof.
  unfold Re.match_at. split.
  - destruct (PyStr.strip_prefix "{{" s) as [r|] eqn:Hr; [|done].
    apply strip_prefix_iff in Hr as ->. cbn [mbind option_bind].
    destruct (span_not_spec "}" r) as (Hr & Hl).
    destruct (Re.span_not "}" r) as [run after]; simpl in Hr, Hl.
    destruct (PyStr.strip_prefix "}}" after) as [rest|] eqn:Ha; [|done].
    apply strip_prefix_iff in Ha as ->.
    intros [= <-]. exists rest. by rewrite Hr.
  - intros (rest & -> & Hl).
    rewrite strip_prefix_app. cbn [mbind option_bind].
    change ("}}" +:+ rest) with (String "}" (String "}" rest)).
    by rewrite span_not_app.
Qed.

(** After a match the scan resumes behind it. *)
Lemma scan_skip s rest :
  Re.scan (s +:+ rest) (PyStr.len s) = Re.scan rest 0.
Proof. induction s as [|c s IH]; [done|]. by rewrite str_app_cons. Qed.

Lemma split_region body rest :
  PyStr.lacks "}" body = true →
  Re.split ("{{" +:+ body +:+ "}}" +:+ rest) = Re.Region body :: Re.split rest.
Proof.
  intros Hl.
  assert (Hm : Re.match_at ("{{" +:+ body +:+ "}}" +:+ rest) = Some body)
    by (apply match_at_iff; eauto).
  unfold Re.split. rewrite str_app_cons in *.
  cbn [Re.scan]. rewrite Hm. f_equal.
  rewrite <- (scan_skip ("{" +:+ body +:+ "}}") rest).
  rewrite !str_app_assoc. f_equal.
  rewrite !str_len_app. simpl. lia.
Qed.

Lemma split_lit c r :
  Re.match_at (String c r) = None →
  Re.split (String c r) = Re.Lit c :: Re.split r.
Proof. intros Hm. unfold Re.split. cbn [Re.scan]. by rewrite Hm. Qed.

(** Induction along the scan: over the empty template, over a character
    at which the pattern does not match, and over a match. *)
Lemma split_ind (P : string → Prop) :
  P "" →
  (∀ c r, Re.match_at (String c r) = None → P r → P (String c r)) →
  (∀ body rest, PyStr.lacks "}" body = true → P rest →
                P ("{{" +:+ body +:+ "}}" +:+ rest)) →
  ∀ s, P s.
Proof.
  intros Hnil Hlit Hreg s.
  remember (PyStr.len s) as n eqn:Hn.
  revert s Hn. induction n as [n IH] using lt_wf_ind. intros s ->.
  destruct s as [|c r]; [done|].
  destruct (Re.match_at (String c r)) as [body|] eqn:Hm.
  - apply match_at_iff in Hm as (rest & Hs & Hl). rewrite Hs.
    apply Hreg; [done|].
    eapply IH; [|done]. rewrite Hs, !str_len_app. simpl. lia.
  - apply Hlit; [done|]. eapply IH; [|done]. simpl. lia.
Qed.

(** The pieces, put back, are the template. *)
Lemma join_app l1 l2 : Re.join (l1 ++ l2) = Re.join l1 +:+ Re.join l2.
Proof.
  induction l1 as [|x l1 IH]; [done|]. simpl.
  by rewrite IH, str_app_assoc.
Qed.

Lemma join_cons x l : Re.join (x :: l) = x +:+ Re.join l.
Proof. done. Qed.

Lemma join_source t : Re.join (Re.source <$> Re.split t) = t.
Proof.
  induction t as [|c r Hm IH|body rest Hl IH] using split_ind.
  - done.
  - rewrite split_lit by done. by rewrite fmap_cons, join_cons, IH.
  - rewrite split_region by done. rewrite fmap_cons, join_cons, IH.
    simpl. by rewrite !str_app_assoc.
Qed.

(** Every piece is what the pattern says at its position: a region where
    it matches, a character where it does not. *)
Lemma split_position t pre p post :
  Re.split t = pre ++ p :: post →
  match p with
  | Re.Region body =>
    Re.match_at (Re.join (Re.source <$> p :: post)) = Some body
  | Re.Lit c =>
    Re.match_at (Re.join (Re.source <$> p :: post)) = None
    ∧ ∃ r, Re.join (Re.source <$> p :: post) = String c r
  end.
Proof.
  revert pre.
  induction t as [|c r Hm IH|body rest Hl IH] using split_ind; intros pre Hs.
  - by destruct pre.
  - rewrite split_lit in Hs by done.
    destruct pre as [|q pre]; simpl in Hs; simplify_eq.
    + rewrite fmap_cons, join_cons, join_source. eauto.
    + by eapply IH.
  - rewrite split_region in Hs by done.
    destruct pre as [|q pre]; simpl in Hs; simplify_eq.
    + rewrite fmap_cons, join_cons, join_source. apply match_at_iff.
      exists rest. simpl. by rewrite !str_app_assoc.
    + by eapply IH.
Qed.

(** *** The pattern as a regular expression *)

Lemma matches_chr_inv c s : Re.matches (Re.Chr c) s → s = String c "".
Proof. by inversion 1. Qed.

Lemma matches_class_star c s :
  Re.matches (Re.Star (Re.NotChr c)) s ↔ PyStr.lacks c s = true.
Proof.
  split.
  - intros Hm. remember (Re.Star (Re.NotChr c)) as r eqn:Hr.
    induction Hm as [| | | |r' s1 s2 H1 _ H2 IH]; try done.
    simplify_eq. inversion H1 as [|? d Hne| | |]; simplify_eq.
    rewrite str_app_cons, str_app_nil_l. simpl. rewrite IH by done.
    by destruct (Ascii.eqb_spec d c).
  - induction s as [|d s IH]; simpl; [constructor|].
    destruct (Ascii.eqb_spec d c) as [|Hne]; [done|]. intros Hl.
    change (String d s) with (String d "" +:+ s).
    constructor; [by constructor|auto].
Qed.

Lemma matches_two c s :
  Re.matches (Re.Seq (Re.Chr c) (Re.Chr c)) s ↔ s = String c (String c "").
Proof.
  split.
  - inversion 1 as [| |? ? s1 s2 H1 H2| |]; simplify_eq.
    by apply matches_chr_inv in H1 as ->, H2 as ->.
  - intros ->. change (String c (String c "")) with (String c "" +:+ String c "").
    by repeat constructor.
Qed.

(** A string matches the pattern exactly when it is [{{], a run without
    closing brace, and [}}]. *)
Lemma pattern_matches s :
  Re.matches Re.pattern s
  ↔ ∃ body, s = "{{" +:+ body +:+ "}}" ∧ PyStr.lacks "}" body = true.
Proof.
  unfold Re.pattern. split.
  - inversion 1 as [| |? ? s1 s2 H1 H2| |]; simplify_eq.
    inversion H2 as [| |? ? s3 s4 H3 H4| |]; simplify_eq.
    apply matches_two in H1 as ->, H4 as ->.
    apply matches_class_star in H3. eauto.
  - intros (body & -> & Hl).
    constructor; [by apply matches_two|].
    constructor; [by apply matches_class_star|by apply matches_two].
Qed.

(** [match_at] finds the match of the pattern at the head of [s], and
    there is no other: a prefix of [s] matches exactly when [match_at]
    returns its group 1. *)
Lemma match_at_pattern s body :
  Re.match_at s = Some body
  ↔ PyStr.lacks "}" body = true
    ∧ Re.matches Re.pattern ("{{" +:+ body +:+ "}}")
    ∧ ∃ rest, s = ("{{" +:+ body +:+ "}}") +:+ rest.
Proof.
  rewrite match_at_iff. split.
  - intros (rest & -> & Hl). split; [done|]. split.
    + apply pattern_matches. eauto.
    + exists rest. by rewrite !str_app_assoc.
  - intros (Hl & _ & rest & ->). exists rest. by rewrite !str_app_assoc.
Qed.

Lemma match_at_unique s m rest :
  s = m +:+ rest → Re.matches Re.pattern m →
  ∃ body, m = "{{" +:+ body +:+ "}}" ∧ Re.match_at s = Some body.
Proof.
  intros -> (body & -> & Hl)%pattern_matches. exists body. split; [done|].
  apply match_at_iff. exists rest. by rewrite !str_app_assoc.
Qed.
End PatternFacts.

(** ** The engine *)

Section EngineFacts.
Context `{Externals}.
Implicit Types (w : world) (names : option loc) (s t : string).

Lemma bind_run {A B} (m : M A) (k : A → M B) w :
  (m ≫= k) w = match m w with
               | (Ok a, w') => k a w'
               | (Raise e, w') => (Raise e, w')
               end.
Proof. done. Qed.

Lemma extends_refl w : extends w w.
Proof. by intros l d. Qed.

Lemma extends_trans w1 w2 w3 : extends w1 w2 → extends w2 w3 → extends w1 w3.
Proof. intros H12 H23 l d Hl. eauto. Qed.

Lemma extends_live w w' names : extends w w' → live w names → live w' names.
Proof. intros He. destruct names as [l|]; [|done]. intros [d Hd]. exists d. eauto. Qed.

Lemma extends_overlay w w' names :
  extends w w' → live w names → overlay w' names = overlay w names.
Proof.
  intros He. destruct names as [l|]; [|done]. intros [d Hd].
  unfold overlay, deref; simpl. by rewrite Hd, (He _ _ Hd).
Qed.

Lemma deref_insert h r e l d : deref (World (<[l:=d]> h) r e) l = d.
Proof. unfold deref; simpl. by rewrite lookup_insert_eq. Qed.

Lemma deref_insert_ne h r e l l' d :
  l ≠ l' → deref (World (<[l:=d]> h) r e) l' = default ∅ (h !! l').
Proof. intros Hne. unfold deref; simpl. by rewrite lookup_insert_ne. Qed.

Ltac simpl_deref :=
  repeat match goal with
         | |- context [deref (World (<[?l:=?d]> ?h) ?r ?e) ?l] =>
           rewrite (deref_insert h r e l d)
         | Hne : ?l ≠ ?l' |- context [deref (World (<[?l:=?d]> ?h) ?r ?e) ?l'] =>
           rewrite (deref_insert_ne h r e l l' d Hne)
         end.

(** One evaluation: the clock is read once, a new dictionary is made for
    the names and filled, and [simple_eval] is called with it; the
    dictionaries that existed are left as they were. *)
Lemma eval_expression_run s names w :
  eval_expression s names w
  = (simple_eval s registry_functions (registry_names w names),
     World (<[fresh (dom (heap w)) := registry_names w names]> (heap w))
           (S (clock_reads w))
           (evals w ++ [Call s registry_functions (registry_names w names)])).
Proof.
  unfold eval_expression, registry_names, names_at, registry_functions.
  set (l := fresh (dom (heap w))).
  set (X := <["now" := VDateTime (wall_clock (clock_reads w))]> DEFAULT_NAMES).
  set (F := domain_functions ∪ DEFAULT_FUNCTIONS).
  assert (Hl : heap w !! l = None).
  { apply (not_elem_of_dom_1 (heap w) l), is_fresh. }
  unfold mbind, M_bind, dict_copy, datetime_now, dict_update_kw, truthy,
    call_simple_eval, mret, M_ret; simpl.
  fold l. simpl_deref. rewrite insert_insert_eq. fold X.
  destruct names as [l0|]; unfold overlay; simpl.
  - destruct (decide (l = l0)) as [<-|Hne].
    + (* the reference is not to an object of the heap *)
      simpl_deref.
      assert (deref w l = ∅) as -> by (unfold deref; by rewrite Hl).
      rewrite (left_id_L ∅ (∪)).
      destruct (bool_decide (X = ∅)); simpl.
      * by simpl_deref.
      * simpl_deref. rewrite insert_insert_eq, (idemp_L (∪)).
        by simpl_deref.
    + simpl_deref. fold (deref w l0).
      destruct (bool_decide_reflect (deref w l0 = ∅)) as [He|He]; simpl.
      * simpl_deref. by rewrite He, (left_id_L ∅ (∪)).
      * simpl_deref. rewrite insert_insert_eq. fold (deref w l0).
        by simpl_deref.
  - simpl_deref. by rewrite (left_id_L ∅ (∪)).
Qed.


Lemma eval_expression_calls s names w :
  evals (world_after (eval_expression s names) w)
  = evals w ++ [Call s registry_functions (registry_names w names)].
Proof. unfold world_after. by rewrite eval_expression_run. Qed.

Lemma eval_expression_clock s names w :
  clock_reads (world_after (eval_expression s names) w) = S (clock_reads w).
Proof. unfold world_after. by rewrite eval_expression_run. Qed.

Lemma eval_expression_extends s names w :
  extends w (world_after (eval_expression s names) w).
Proof.
  unfold world_after. rewrite eval_expression_run. intros l d Hl; simpl.
  rewrite lookup_insert_ne; [done|]. intros <-.
  by rewrite (not_elem_of_dom_1 (heap w) (fresh (dom (heap w)))) in Hl
    by apply is_fresh.
Qed.

(** The replacement of a match: the result of the evaluation, printed;
    the world is the one the evaluation leaves. *)
Lemma repl_result names body w :
  result_of (repl names body) w
  = py_str <$> result_of (eval_expression body names) w.
Proof.
  unfold result_of, repl. rewrite bind_run.
  by destruct (eval_expression body names w) as [[v|e] w'].
Qed.

Lemma repl_world names body w :
  world_after (repl names body) w = world_after (eval_expression body names) w.
Proof.
  unfold world_after, repl. rewrite bind_run.
  by destruct (eval_expression body names w) as [[v|e] w'].
Qed.

(** *** The pieces, one after the other *)

Lemma render_nil names w : render names [] w = (Ok [], w).
Proof. done. Qed.

Lemma render_cons names p ps w :
  render names (p :: ps) w
  = match Re.replace (repl names) p w with
    | (Ok out, w1) =>
      match render names ps w1 with
      | (Ok outs, w2) => (Ok (out :: outs), w2)
      | (Raise e, w2) => (Raise e, w2)
      end
    | (Raise e, w1) => (Raise e, w1)
    end.
Proof.
  unfold render; simpl. rewrite bind_run.
  destruct (Re.replace (repl names) p w) as [[out|e] w1]; [|done].
  rewrite bind_run.
  by destruct (mapM (M:=M) (Re.replace (repl names)) ps w1) as [[outs|e] w2].
Qed.

Lemma render_lit names c ps w :
  render names (Re.Lit c :: ps) w
  = match render names ps w with
    | (Ok outs, w2) => (Ok (String c "" :: outs), w2)
    | (Raise e, w2) => (Raise e, w2)
    end.
Proof. by rewrite render_cons. Qed.

Lemma render_region names body ps w :
  render names (Re.Region body :: ps) w
  = match result_of (repl names body) w with
    | Ok out =>
      match render names ps (world_after (repl names body) w) with
      | (Ok outs, w2) => (Ok (out :: outs), w2)
      | (Raise e, w2) => (Raise e, w2)
      end
    | Raise e => (Raise e, world_after (repl names body) w)
    end.
Proof.
  rewrite render_cons. unfold result_of, world_after; simpl.
  by destruct (repl names body w) as [[out|e] w1].
Qed.

Lemma eval_template_render t names w :
  eval_template t names w
  = match render names (Re.split t) w with
    | (Ok outs, w') => (Ok (Re.join outs), w')
    | (Raise e, w') => (Raise e, w')
    end.
Proof.
  unfold eval_template, Re.sub. rewrite bind_run. fold (render names (Re.split t)).
  by destruct (render names (Re.split t) w) as [[outs|e] w'].
Qed.

(** Pieces without a match are put back as they are, and nothing is
    evaluated. *)
Lemma render_literals names ps w :
  Re.bodies ps = [] → render names ps w = (Ok (Re.source <$> ps), w).
Proof.
  induction ps as [|[c|body] ps IH]; intros Hb; [done| |done].
  rewrite render_lit, IH; done.
Qed.

(** The pieces before a failing evaluation have been replaced, the failing
    one raises, and the rest is not looked at. *)
Lemma render_raise names pre body post w outs e :
  result_of (render names pre) w = Ok outs →
  result_of (eval_expression body names) (world_after (render names pre) w)
    = Raise e →
  render names (pre ++ Re.Region body :: post) w
  = (Raise e,
     world_after (eval_expression body names) (world_after (render names pre) w)).
Proof.
  revert w outs. induction pre as [|p pre IH]; intros w outs Hpre Hbody.
  - change (world_after (render names []) w) with w in *.
    simpl app; rewrite render_region, repl_result, Hbody; simpl.
    by rewrite repl_world.
  - rewrite <- app_comm_cons, render_cons.
    unfold result_of in Hpre. unfold world_after in Hbody |- * at 2.
    rewrite render_cons in Hpre, Hbody |- *.
    destruct (Re.replace (repl names) p w) as [[out|e1] w1]; [|done].
    destruct (render names pre w1) as [[outs1|e1] w2] eqn:Hr; [|done].
    simpl in Hbody |- *.
    rewrite (IH w1 outs1).
    + unfold world_after at 2. by rewrite Hr.
    + unfold result_of. by rewrite Hr.
    + unfold world_after at 1. by rewrite Hr.
Qed.

(** What a rendering does to the world: one reading of the clock and one
    call of [simple_eval] per match reached, in order, each with the
    caller's names over the reading made for it; the dictionaries that
    existed are left as they were. *)
Lemma render_run names ps w :
  live w names →
  ∃ calls,
    evals (world_after (render names ps) w) = evals w ++ calls
    ∧ clock_reads (world_after (render names ps) w)
      = (clock_reads w + length calls)%nat
    ∧ extends w (world_after (render names ps) w)
    ∧ (call_expr <$> calls) `prefix_of` Re.bodies ps
    ∧ (∀ outs, result_of (render names ps) w = Ok outs →
               call_expr <$> calls = Re.bodies ps)
    ∧ ∀ i c, calls !! i = Some c →
        call_functions c = registry_functions
        ∧ call_names c = names_at (overlay w names) (clock_reads w + i).
Proof.
  revert w. induction ps as [|[ch|body] ps IH]; intros w Hlive.
  - exists []. unfold world_after, result_of; simpl.
    rewrite app_nil_r, Nat.add_0_r.
    split_and!; [done|done|apply extends_refl|done|done|done].
  - destruct (IH w Hlive) as (calls & He & Hc & Hx & Hp & Hok & Hn).
    exists calls. unfold world_after, result_of in *.
    rewrite render_lit.
    destruct (render names ps w) as [[outs|e] w2]; simpl in *;
      split_and!; try done.
    intros outs' [= <-]. eauto.
  - set (w1 := world_after (eval_expression body names) w).
    assert (Hx1 : extends w w1) by apply eval_expression_extends.
    assert (Hl1 : live w1 names) by eauto using extends_live.
    destruct (IH w1 Hl1) as (calls & He & Hc & Hx & Hp & Hok & Hn).
    unfold world_after, result_of in *. rewrite render_region.
    rewrite repl_result, repl_world.
    change (world_after (eval_expression body names) w) with w1.
    set (c0 := Call body registry_functions (registry_names w names)).
    assert (He1 : evals w1 = evals w ++ [c0]) by apply eval_expression_calls.
    assert (Hc1 : clock_reads w1 = S (clock_reads w))
      by apply eval_expression_clock.
    destruct (result_of (eval_expression body names) w) as [v|e]; simpl.
    + exists (c0 :: calls).
      assert (Hcalls : ∀ i c, (c0 :: calls) !! i = Some c →
        call_functions c = registry_functions
        ∧ call_names c = names_at (overlay w names) (clock_reads w + i)).
      { intros [|i] c; simpl.
        - intros [= <-]. by rewrite Nat.add_0_r.
        - intros Hi. destruct (Hn i c Hi) as [-> ->]. split; [done|].
          rewrite (extends_overlay w w1), Hc1 by done. f_equal. lia. }
      destruct (render names ps w1) as [[outs|e] w2]; simpl in *;
        (split_and!;
         [by rewrite He, He1, <- app_assoc
         |rewrite Hc, Hc1; lia
         |by eapply extends_trans
         |by apply prefix_cons
         |
         |done]).
      * intros outs' _. f_equal. eauto.
      * done.
    + exists [c0]. simpl. split_and!; try done.
      * rewrite Hc1. lia.
      * apply prefix_cons, prefix_nil.
      * intros [|i] c; simpl; [|done].
        intros [= <-]. by rewrite Nat.add_0_r.
Qed.
End EngineFacts.

(** ** The delimiters of the specification against those of the code *)

Section ReadingFacts.
Implicit Types (s t body rest : string).

Lemma before_close_run body rest :
  PyStr.lacks "}" body = true →
  SpecReading.before_close (body +:+ "}}" +:+ rest) = Some body.
Proof.
  induction body as [|c body IH]; intros Hl; [done|].
  rewrite str_app_cons. simpl in Hl.
  destruct (Ascii.eqb_spec c "}") as [->|Hne]; [done|].
  cbn [SpecReading.before_close PyStr.strip_prefix].
  destruct (Ascii.eqb_spec "}" c) as [<-|_]; [done|].
  by rewrite IH.
Qed.

(** A region of the code is a region of the specification, with the same
    body. *)
Lemma region_is_spec_region s body :
  Re.match_at s = Some body → SpecReading.match_at s = Some body.
Proof.
  intros (rest & -> & Hl)%match_at_iff.
  unfold SpecReading.match_at. rewrite strip_prefix_app.
  by apply before_close_run.
Qed.

(** A template without region in the sense of the specification has none
    in the sense of the code. *)
Lemma no_spec_region_no_region t :
  Re.bodies (SpecReading.split t) = [] → Re.bodies (Re.split t) = [].
Proof.
  unfold SpecReading.split, Re.split.
  induction t as [|c r IH]; [done|].
  cbn [SpecReading.scan Re.scan].
  destruct (SpecReading.match_at (String c r)) as [b|] eqn:Hs; [done|].
  destruct (Re.match_at (String c r)) as [b|] eqn:Hm.
  - apply region_is_spec_region in Hm. congruence.
  - simpl. apply IH.
Qed.
End ReadingFacts.

(** ** Shared objects *)

Section SharedFacts.
Import Shared.
Context `{Externals} `{Evaluator}.

(** One evaluation: a new dictionary is made and filled, and [simple_eval]
    is called with it in a heap that is otherwise the caller's; the heap
    afterwards is the one [simple_eval] leaves. *)
Lemma shared_eval_expression_run s names w :
  ∃ names_combined d,
    heap w !! names_combined = None
    ∧ eval_expression s names w
      = ((simple_eval s (domain_functions ∪ DEFAULT_FUNCTIONS) names_combined
            (<[names_combined := d]> (heap w))).1,
         World (simple_eval s (domain_functions ∪ DEFAULT_FUNCTIONS) names_combined
                  (<[names_combined := d]> (heap w))).2
               (S (clock_reads w))).
Proof.
set (l := fresh (dom (heap w))).
assert (Hl : heap w !! l = None).
{ apply (not_elem_of_dom_1 (heap w) l), is_fresh. }
exists l.
unfold eval_expression, dict_copy, datetime_now, dict_update_kw. fold l.
cbn [heap clock_reads]. rewrite (insert_insert_eq (heap w) l).
set (w1 := World _ (S (clock_reads w))).
destruct (truthy names w1).
- unfold dict_update. subst w1. destruct names as [source|].
  + cbn [heap clock_reads]. rewrite (insert_insert_eq (heap w) l).
    match goal with
    | |- context [World (<[l := ?x]> (heap w)) _] => exists x
    end.
    split; [done|]. unfold call_simple_eval. cbn [heap clock_reads].
    by destruct (simple_eval _ _ _ _).
  + match goal with
    | |- context [World (<[l := ?x]> (heap w)) _] => exists x
    end.
    split; [done|]. unfold call_simple_eval. cbn [heap clock_reads].
    by destruct (simple_eval _ _ _ _).
- subst w1.
  match goal with
  | |- context [World (<[l := ?x]> (heap w)) _] => exists x
  end.
  split; [done|]. unfold call_simple_eval.
  cbn [heap clock_reads]. by destruct (simple_eval _ _ _ _).
Qed.

(** A dictionary that [simple_eval] leaves alone is left alone. *)
Lemma shared_eval_expression_frame s names w l d :
  heap w !! l = Some d → leaves l s →
  heap (eval_expression s names w).2 !! l = Some d.
Proof.
intros Hl Hs.
destruct (shared_eval_expression_run s names w) as (nc & dc & Hnc & ->).
cbn [snd heap]. rewrite Hs. rewrite lookup_insert_ne; [done|].
intros <-. congruence.
Qed.

Lemma shared_render_frame names ps w l d :
  heap w !! l = Some d →
  (∀ e, e ∈ Re.bodies ps → leaves l e) →
  heap (render names ps w).2 !! l = Some d.
Proof.
revert w. induction ps as [|[c|body] ps IH]; intros w Hl Hps.
- done.
- cbn [render]. specialize (IH w Hl Hps).
  by destruct (render names ps w) as [[outs|e] w'].
- cbn [render].
  assert (Hbody : leaves l body) by (apply Hps; cbn; by left).
  pose proof (shared_eval_expression_frame body names w l d Hl Hbody) as H1.
  destruct (eval_expression body names w) as [[v|e] w1]; [|done].
  cbn [snd] in H1.
  assert (Hrest : ∀ e, e ∈ Re.bodies ps → leaves l e).
  { intros e He. apply Hps. cbn. by right. }
  specialize (IH w1 H1 Hrest).
  by destruct (render names ps w1) as [[outs|e] w2].
Qed.

End SharedFacts.

(** * The claims *)

(** C3: [end(s, n)] is meant to return the last [abs(n)] characters of [s],
    of which there are [min(abs(n), len(s))].  For [n = 0] the slice
    [s[-0:]] is all of [s], not the empty string: the result has [len(s)]
    characters where the claim has 0, and on ["abc"] it is ["abc"]. *)
Theorem end_zero_returns_whole_string s :
  _end s 0 = s
  ∧ Z.of_nat (PyStr.len (_end s 0)) = Z.of_nat (PyStr.len s)
  ∧ Z.min (Z.abs 0) (Z.of_nat (PyStr.len s)) = 0
  ∧ _end "abc" 0 = "abc".
Proof.
  rewrite end_zero. split; [done|]. split; [done|].
  split; [lia|]. apply end_zero.
Qed.

(** C10: for a negative [n], [start(s, n)] is the slice [s[0:n]]: [s]
    without its last [abs(n)] characters, which are those [end(s, n)]
    returns.  It is shorter than [s] and not empty when [abs(n) < len(s)]. *)
Theorem start_negative_drops_tail s n :
  n < 0 →
  _start s n = PyStr.getslice s (Some 0) (Some n)
  ∧ _start s n = PyStr.take (PyStr.len s - Z.to_nat (Z.abs n)) s
  ∧ _start s n +:+ _end s n = s
  ∧ Z.of_nat (PyStr.len (_start s n)) = Z.max 0 (Z.of_nat (PyStr.len s) - Z.abs n)
  ∧ (Z.abs n < Z.of_nat (PyStr.len s) →
     (0 < PyStr.len (_start s n) < PyStr.len s)%nat).
Proof.
  intros Hn.
  assert (Hs : _start s n = PyStr.take (PyStr.len s - Z.to_nat (Z.abs n)) s).
  { rewrite start_neg by done. do 2 f_equal. lia. }
  split; [done|]. split; [done|].
  split; [|split].
  - rewrite Hs, end_nonzero by lia. apply str_take_drop.
  - rewrite Hs, str_len_take. lia.
  - intros Hlt. rewrite Hs, str_len_take. lia.
Qed.

(** On ["hello"] and [-2]: ["hel"], with ["lo"] dropped. *)
Lemma start_negative_drops_tail_witness :
  -2 < 0
  ∧ _start "hello" (-2) = "hel"
  ∧ _start "hello" (-2) +:+ _end "hello" (-2) = "hello".
Proof.
  assert (H : -2 < 0) by lia.
  split; [exact H|].
  split; [reflexivity|].
  exact (proj1 (proj2 (proj2 (start_negative_drops_tail "hello" (-2) H)))).
Defined.

(** C4, as worded: the regions of the code are those of the specification.
    They are not: a single closing brace between the delimiters keeps the
    pattern from matching, so the code finds no region in [{{a}b}}] where
    the specification has one with body [a}b]. *)
Lemma single_closing_brace_prevents_region :
  Re.split "{{a}b}}" ≠ SpecReading.split "{{a}b}}"
  ∧ Re.bodies (Re.split "{{a}b}}") = []
  ∧ Re.bodies (SpecReading.split "{{a}b}}") = ["a}b"].
Proof. split; [by vm_compute|]. by vm_compute. Qed.

(** C4, amended: a string matches the pattern exactly when it is [{{], a
    run of characters other than the closing brace, and [}}]; a region is
    recognised at a position exactly when the template continues there with
    such a string, and its body is the run; the pieces the scan cuts the
    template into lie side by side from left to right and make up the
    template; and every piece is a region where the pattern matches at its
    position and a single character where it does not. *)
Theorem regions_are_runs_without_closing_brace t :
  (∀ m, Re.matches Re.pattern m
        ↔ ∃ body, m = "{{" +:+ body +:+ "}}" ∧ PyStr.lacks "}" body = true)
  ∧ (∀ s body, Re.match_at s = Some body
        ↔ ∃ rest, s = "{{" +:+ body +:+ "}}" +:+ rest
                  ∧ PyStr.lacks "}" body = true)
  ∧ Re.join (Re.source <$> Re.split t) = t
  ∧ ∀ pre p post, Re.split t = pre ++ p :: post →
      match p with
      | Re.Region body =>
        Re.match_at (Re.join (Re.source <$> p :: post)) = Some body
      | Re.Lit c =>
        Re.match_at (Re.join (Re.source <$> p :: post)) = None
        ∧ ∃ r, Re.join (Re.source <$> p :: post) = String c r
      end.
Proof.
  split_and!.
  - apply pattern_matches.
  - apply match_at_iff.
  - apply join_source.
  - apply split_position.
Qed.

Section Claims.
Context `{Externals}.
Implicit Types (w : world) (names : option loc) (s t : string).

(** C2: [unixtime] of a date or of a time of day is meant to convert it.
    It raises instead: the branch for these values calls their
    [timestamp] method, which only [datetime.datetime] has. *)
Theorem unixtime_of_date_or_time_raises (d : date) (t : time) :
  _unixtime (VDate d) = Raise (AttributeError "timestamp")
  ∧ _unixtime (VTime t) = Raise (AttributeError "timestamp").
Proof. done. Qed.

(** C7: [unixtime] returns a value that is not a string, a date or a time
    of day as it is, and doing so again changes nothing. *)
Theorem unixtime_passes_through (x : value) :
  isinstance_str x = false →
  isinstance_time x = false →
  isinstance_date x = false →
  _unixtime x = Ok x ∧ (_unixtime x ≫= _unixtime) = Ok x.
Proof.
  intros Hs Ht Hd.
  assert (Hx : _unixtime x = Ok x) by by destruct x.
  split; [done|]. by rewrite Hx.
Qed.

(** C6: a template in which the pattern matches nowhere is returned as it
    is, and nothing else happens: the clock is not read and [simple_eval]
    is not called. *)
Theorem eval_template_without_region t names w :
  Re.bodies (Re.split t) = [] →
  eval_template t names w = (Ok t, w)
  ∧ calls_between w (world_after (eval_template t names) w) = []
  ∧ clock_reads (world_after (eval_template t names) w) = clock_reads w.
Proof.
  intros Hb.
  assert (Hr : eval_template t names w = (Ok t, w)).
  { by rewrite eval_template_render, render_literals, join_source. }
  unfold world_after, calls_between. rewrite Hr. simpl.
  by rewrite drop_all.
Qed.

(** The same for a template without region in the sense of the
    specification. *)
Corollary eval_template_without_spec_region t names w :
  Re.bodies (SpecReading.split t) = [] → eval_template t names w = (Ok t, w).
Proof.
  intros Hb%no_spec_region_no_region.
  by rewrite eval_template_render, render_literals, join_source.
Qed.

(** C5: when the evaluation of an embedded expression raises, after the
    regions before it have been replaced, the rendering raises the same
    exception and returns no string; the world is left as that evaluation
    left it. *)
Theorem eval_template_raises t names w pre body post outs e :
  Re.split t = pre ++ Re.Region body :: post →
  result_of (render names pre) w = Ok outs →
  result_of (eval_expression body names) (world_after (render names pre) w)
    = Raise e →
  result_of (eval_template t names) w = Raise e
  ∧ (∀ out, result_of (eval_template t names) w ≠ Ok out)
  ∧ world_after (eval_template t names) w
    = world_after (eval_expression body names)
                  (world_after (render names pre) w).
Proof.
  intros Hs Hpre Hbody.
  unfold result_of at 1 2, world_after at 1.
  rewrite eval_template_render, Hs, (render_raise _ _ _ _ _ outs e) by done.
  done.
Qed.

(** A rendering that raises does so for an embedded expression: the
    converse of the above. *)
Lemma eval_template_raises_inv t names w e :
  result_of (eval_template t names) w = Raise e →
  ∃ pre body post outs,
    Re.split t = pre ++ Re.Region body :: post
    ∧ result_of (render names pre) w = Ok outs
    ∧ result_of (eval_expression body names)
                (world_after (render names pre) w) = Raise e.
Proof.
  unfold result_of at 1. rewrite eval_template_render.
  generalize (Re.split t). intros ps. revert w.
  induction ps as [|[c|body] ps IH]; intros w.
  - done.
  - rewrite render_lit.
    destruct (render names ps w) as [[outs|e'] w2] eqn:Hr; [done|].
    intros [= ->].
    destruct (IH w) as (pre & body & post & outs & -> & Hpre & Hbody).
    { by rewrite Hr. }
    exists (Re.Lit c :: pre), body, post, (String c "" :: outs).
    split; [done|].
    unfold result_of, world_after in *. rewrite render_lit.
    by destruct (render names pre w) as [[o|e'] w3]; simplify_eq/=.
  - rewrite render_region, repl_result, repl_world.
    destruct (result_of (eval_expression body names) w) as [v|e'] eqn:Hb; simpl.
    + set (w1 := world_after (eval_expression body names) w).
      destruct (render names ps w1) as [[outs|e'] w2] eqn:Hr; [done|].
      intros [= ->].
      destruct (IH w1) as (pre & body' & post & outs & -> & Hpre & Hbody).
      { by rewrite Hr. }
      exists (Re.Region body :: pre), body', post, (py_str v :: outs).
      split; [done|].
      assert (E : render names (Re.Region body :: pre) w
                  = match render names pre w1 with
                    | (Ok outs, w2) => (Ok (py_str v :: outs), w2)
                    | (Raise e, w2) => (Raise e, w2)
                    end).
      { by rewrite render_region, repl_result, repl_world, Hb. }
      unfold result_of, world_after in Hpre, Hbody |- *. rewrite E.
      by destruct (render names pre w1) as [[o|e'] w3]; simplify_eq/=.
    + intros [= ->]. exists [], body, ps, []. by split_and!.
Qed.


(** C1, amended: [now] is read once for each embedded expression, when
    that expression is evaluated, not once for the template.  The calls of
    [simple_eval] one rendering makes are for the bodies of the regions,
    in order, up to the first that raises; each call comes with one reading
    of the clock, and the i-th call is given the i-th of these readings as
    [now], unless the caller binds [now]. *)
Theorem now_is_read_for_each_region t names w :
  live w names →
  overlay w names !! "now" = None →
  let w' := world_after (eval_template t names) w in
  clock_reads w' = (clock_reads w + length (calls_between w w'))%nat
  ∧ call_expr <$> calls_between w w' `prefix_of` Re.bodies (Re.split t)
  ∧ (∀ out, result_of (eval_template t names) w = Ok out →
            call_expr <$> calls_between w w' = Re.bodies (Re.split t))
  ∧ ∀ i, (i < length (calls_between w w'))%nat →
      nows_between w w' !! i
      = Some (Some (VDateTime (wall_clock (clock_reads w + i)))).
Proof.
  intros Hlive Hnow w'.
  destruct (render_run names (Re.split t) w Hlive)
    as (calls & He & Hc & _ & Hp & Hok & Hn).
  assert (Hw : w' = world_after (render names (Re.split t)) w).
  { unfold w', world_after. rewrite eval_template_render.
    by destruct (render names (Re.split t) w) as [[outs|e] w2]. }
  assert (Hcalls : calls_between w w' = calls).
  { unfold calls_between. by rewrite Hw, He, drop_app_length. }
  unfold nows_between. rewrite Hcalls, Hw. split_and!; try done.
  - intros out. unfold result_of in *. rewrite eval_template_render.
    destruct (render names (Re.split t) w) as [[outs|e] w2]; [|done].
    intros _. by apply (Hok outs).
  - intros i [c Hi]%lookup_lt_is_Some_2.
    rewrite list_lookup_fmap, Hi. simpl. do 2 f_equal.
    destruct (Hn i c Hi) as [_ ->]. unfold names_at.
    rewrite lookup_union_r by done. apply lookup_insert_eq.
Qed.

End Claims.

Section SharedClaims.
Import Shared.
Context `{Externals} `{Evaluator}.

(** C9, amended: [eval_expression] and [eval_template] themselves only
    read the dictionary the caller passes.  [simple_eval] is handed a new
    dictionary, in a heap in which the caller's is as it was, and the heap
    after the call is the one [simple_eval] leaves: the caller's dictionary
    has the same entries afterwards, whether a value is returned or an
    exception raised, when the evaluation of each expression leaves it
    alone. *)
Theorem caller_names_only_read s l d w :
  heap w !! l = Some d →
  (∃ names_combined h,
     names_combined ≠ l
     ∧ h !! l = Some d
     ∧ heap (eval_expression s (Some l) w).2
       = (simple_eval s (domain_functions ∪ DEFAULT_FUNCTIONS) names_combined h).2)
  ∧ (leaves l s → heap (eval_expression s (Some l) w).2 !! l = Some d)
  ∧ ((∀ e, e ∈ Re.bodies (Re.split s) → leaves l e) →
     heap (eval_template s (Some l) w).2 !! l = Some d).
Proof.
intros Hl. split_and!.
- destruct (shared_eval_expression_run s (Some l) w) as (nc & dc & Hnc & ->).
  exists nc, (<[nc := dc]> (heap w)). split_and!.
  + intros ->. congruence.
  + rewrite lookup_insert_ne; [done|]. intros ->. congruence.
  + done.
- by apply shared_eval_expression_frame.
- intros Hs. unfold eval_template.
  pose proof (shared_render_frame (Some l) (Re.split s) w l d Hl Hs) as Hr.
  by destruct (render (Some l) (Re.split s) w) as [[outs|e] w'].
Qed.

End SharedClaims.

(** * The claims in the test environment *)

Section Witnesses.
Import TestEnv.

(** C1, as worded: all the expressions of one rendering see the same
    [now].  With a clock that advances between two readings they do not:
    in [{{now}}{{now}}] the first expression is given the first reading and
    the second the second, a quarter of a second later. *)
Lemma now_differs_between_regions :
  nows_between start (world_after (eval_template "{{now}}{{now}}" None) start)
    = [Some (VDateTime (clock 0)); Some (VDateTime (clock 1))]
  ∧ result_of (eval_template "{{now}}{{now}}" None) start
    = Ok "2024-01-01 00:00:002024-01-01 00:00:00.250000"
  ∧ ¬ one_now_per_render "{{now}}{{now}}" None start.
Proof.
  assert (Hn : nows_between start
                 (world_after (eval_template "{{now}}{{now}}" None) start)
               = [Some (VDateTime (clock 0)); Some (VDateTime (clock 1))])
    by (vm_compute; reflexivity).
  split; [exact Hn|]. split; [vm_compute; reflexivity|].
  intros Hsame.
  specialize (Hsame (Some (VDateTime (clock 0))) (Some (VDateTime (clock 1)))).
  rewrite Hn in Hsame.
  assert (Hne : Some (VDateTime (clock 0)) ≠ Some (VDateTime (clock 1)))
    by (vm_compute; congruence).
  apply Hne, Hsame.
  - apply list_elem_of_here.
  - apply list_elem_of_further, list_elem_of_here.
Qed.

(** In [{{now}}{{now}}] the second expression is given the second reading. *)
Lemma now_is_read_for_each_region_witness :
  live start None
  ∧ overlay start None !! "now" = None
  ∧ nows_between start
      (world_after (eval_template "{{now}}{{now}}" None) start) !! 1%nat
    = Some (Some (VDateTime (wall_clock (clock_reads start + 1)))).
Proof.
  assert (H1 : live start None) by exact I.
  assert (H2 : overlay start None !! "now" = None) by (vm_compute; reflexivity).
  split; [exact H1|]. split; [exact H2|].
  apply (now_is_read_for_each_region "{{now}}{{now}}" None start H1 H2).
  vm_compute. lia.
Defined.

(** [unixtime(5)] is [5]. *)
Lemma unixtime_passes_through_witness :
  isinstance_str (VInt 5) = false
  ∧ isinstance_time (VInt 5) = false
  ∧ isinstance_date (VInt 5) = false
  ∧ _unixtime (VInt 5) = Ok (VInt 5).
Proof.
  split; [reflexivity|]. split; [reflexivity|]. split; [reflexivity|].
  exact (proj1 (unixtime_passes_through (VInt 5) eq_refl eq_refl eq_refl)).
Defined.

(** A template with braces and no match of the pattern. *)
Lemma eval_template_without_region_witness :
  Re.bodies (Re.split "{{a}b}} is { not } a region") = []
  ∧ eval_template "{{a}b}} is { not } a region" None start
    = (Ok "{{a}b}} is { not } a region", start).
Proof.
  assert (H : Re.bodies (Re.split "{{a}b}} is { not } a region") = [])
    by (vm_compute; reflexivity).
  split; [exact H|].
  apply (eval_template_without_region _ None start H).
Defined.

(** The second expression of [a{{ 1 }}b{{ 1 + }}c{{ 2 }}] does not parse: the
    rendering raises the syntax error and the third is not evaluated. *)
Lemma eval_template_raises_witness :
  Re.split "a{{ 1 }}b{{ 1 + }}c{{ 2 }}"
    = [Re.Lit "a"; Re.Region " 1 "; Re.Lit "b"] ++ Re.Region " 1 + "
      :: [Re.Lit "c"; Re.Region " 2 "]
  ∧ result_of (render None [Re.Lit "a"; Re.Region " 1 "; Re.Lit "b"]) start
    = Ok ["a"; "1"; "b"]
  ∧ result_of (eval_expression " 1 + " None)
      (world_after (render None [Re.Lit "a"; Re.Region " 1 "; Re.Lit "b"]) start)
    = Raise SyntaxError
  ∧ result_of (eval_template "a{{ 1 }}b{{ 1 + }}c{{ 2 }}" None) start
    = Raise SyntaxError.
Proof.
  assert (H1 : Re.split "a{{ 1 }}b{{ 1 + }}c{{ 2 }}"
    = [Re.Lit "a"; Re.Region " 1 "; Re.Lit "b"] ++ Re.Region " 1 + "
      :: [Re.Lit "c"; Re.Region " 2 "]) by (vm_compute; reflexivity).
  assert (H2 : result_of (render None [Re.Lit "a"; Re.Region " 1 "; Re.Lit "b"]) start
    = Ok ["a"; "1"; "b"]) by (vm_compute; reflexivity).
  assert (H3 : result_of (eval_expression " 1 + " None)
      (world_after (render None [Re.Lit "a"; Re.Region " 1 "; Re.Lit "b"]) start)
    = Raise SyntaxError) by (vm_compute; reflexivity).
  split; [exact H1|]. split; [exact H2|]. split; [exact H3|].
  apply (eval_template_raises _ None start _ _ _ _ _ H1 H2 H3).
Defined.



(** *** The scenarios of the specification, and the helpers at work *)

Example scenario_start :
  result_of (eval_template "Filter-{{ start('2024-Q1', 4) }}" None) start
  = Ok "Filter-2024".
Proof. vm_compute; reflexivity. Qed.

Example scenario_unknown_name :
  result_of (eval_expression "unrecognized_name" None) start
  = Raise (NameNotDefined "unrecognized_name").
Proof. vm_compute; reflexivity. Qed.

Example scenario_syntax_error :
  result_of (eval_template "{{ 1 + }}" None) start = Raise SyntaxError.
Proof. vm_compute; reflexivity. Qed.

Example slices_at_work :
  result_of (eval_template
    "{{end('hello', 0)}}|{{end('hello', -2)}}|{{start('hello', -2)}}|{{end('hello', 9)}}"
    None) start
  = Ok "hello|lo|hel|hello".
Proof. vm_compute; reflexivity. Qed.

Example unixtime_at_work :
  result_of (eval_template "{{ unixtime('2024-01-01') }} {{ unixtime(now) }} {{ unixtime(7) }}"
    None) start
  = Ok "1704067200.0 1704067200.25 7".
Proof. vm_compute; reflexivity. Qed.

(** The caller's [now] is the one an expression sees; a name of the caller
    that is also the name of a helper is seen as a name, while a call still
    finds the helper in the table of functions. *)
Example caller_now_is_seen :
  result_of (eval_template "{{ now }}" (Some 0%nat))
            (with_names {[ "now" := VInt 3 ]})
  = Ok "3".
Proof. vm_compute; reflexivity. Qed.

Example caller_name_beside_helper :
  result_of (eval_template "{{ end }} {{ end('abc', 1) }}" (Some 0%nat))
            (with_names {[ "end" := VInt 5 ]})
  = Ok "5 c".
Proof. vm_compute; reflexivity. Qed.
End Witnesses.

Section SharedWitnesses.
Import TestEnv Shared TestShared.

(** C9, as worded: the dictionary the caller passes has the same entries
    after the call as before, whatever the expression.  An expression that
    calls a method of an object it reaches changes that object: the
    dictionary of names itself, when it is bound to one of its names, and
    the dictionary of a filter that the handler binds. *)
Lemma bound_object_is_changed :
  heap self_bound !! 0%nat = Some {[ "me" := Dict 0%nat ]}
  ∧ (eval_expression "me.clear()" (Some 0%nat) self_bound).1
    = Ok (Immutable VNone)
  ∧ heap (eval_expression "me.clear()" (Some 0%nat) self_bound).2 !! 0%nat
    = Some ∅
  ∧ heap (eval_expression "filter.clear()" (Some 0%nat) filter_bound).2 !! 1%nat
    = Some ∅
  ∧ ¬ caller_mapping_unchanged "me.clear()" 0%nat self_bound.
Proof.
split; [vm_compute; reflexivity|].
split; [vm_compute; reflexivity|].
split; [vm_compute; reflexivity|].
split; [vm_compute; reflexivity|].
unfold caller_mapping_unchanged. intros Hsame.
vm_compute in Hsame. discriminate.
Qed.

(** Expressions that call no method leave the dictionary of the filter and
    that of the names as they were. *)
Lemma caller_names_only_read_witness :
  heap filter_bound !! 0%nat = Some {[ "filter" := Dict 1%nat ]}
  ∧ heap (eval_template "{{start('abc', 2)}}-{{now}}" (Some 0%nat)
                        filter_bound).2 !! 0%nat
    = Some {[ "filter" := Dict 1%nat ]}.
Proof.
assert (Hl : heap filter_bound !! 0%nat = Some {[ "filter" := Dict 1%nat ]})
  by (vm_compute; reflexivity).
split; [exact Hl|].
refine (proj2 (proj2 (caller_names_only_read "{{start('abc', 2)}}-{{now}}"
                        0%nat _ filter_bound Hl)) _).
assert (Hb : Re.bodies (Re.split "{{start('abc', 2)}}-{{now}}")
             = ["start('abc', 2)"; "now"]) by (vm_compute; reflexivity).
rewrite Hb. intros e He functions names_combined h.
apply elem_of_cons in He as [->|He].
- reflexivity.
- apply elem_of_cons in He as [->|He]; [reflexivity|].
  by apply elem_of_nil in He.
Defined.

End SharedWitnesses.

(** * Further properties of the helpers *)

Section AffixFacts.
Implicit Types (s p r : string).

Lemma startswith_iff s p :
  PyStr.startswith s p = true ↔ ∃ r, s = p +:+ r.
Proof.
  unfold PyStr.startswith. revert s.
  induction p as [|c p IH]; intros s.
  - split; [intros _; by exists s|]. by destruct s.
  - destruct s as [|d s]; simpl.
    + split; [done|]. by intros [r Hr].
    + destruct (ascii_dec c d) as [->|Hne].
      * rewrite IH. split; intros [r Hr]; exists r.
        -- by rewrite str_app_cons, Hr.
        -- rewrite str_app_cons in Hr. congruence.
      * split; [done|]. intros [r Hr]. rewrite str_app_cons in Hr. congruence.
Qed.

Lemma str_drop_app s r : PyStr.drop (PyStr.len s) (s +:+ r) = r.
Proof. induction s as [|c s IH]; [apply str_drop_0|]. by rewrite str_app_cons. Qed.

Lemma str_take_app s r : PyStr.take (PyStr.len s) (s +:+ r) = s.
Proof.
  induction s as [|c s IH]; [by destruct r|].
  rewrite str_app_cons. simpl. by rewrite IH.
Qed.

Lemma endswith_iff s p :
  PyStr.endswith s p = true ↔ ∃ r, s = r +:+ p.
Proof.
  unfold PyStr.endswith. rewrite andb_true_iff, !bool_decide_eq_true. split.
  - intros [Hlen Hd]. exists (PyStr.take (PyStr.len s - PyStr.len p) s).
    pose proof (str_take_drop (PyStr.len s - PyStr.len p) s) as Htd.
    by rewrite Hd in Htd.
  - intros [r ->]. rewrite str_len_app. split; [lia|].
    replace (PyStr.len r + PyStr.len p - PyStr.len p)%nat with (PyStr.len r) by lia.
    apply str_drop_app.
Qed.
End AffixFacts.

(** X1: for [n] from 0 on, [start(s, n)] is the first [n] characters of
    [s], all of [s] when it has no more than [n], and nothing for [n = 0];
    followed by the rest of [s] it is [s]. *)
Theorem start_nonnegative_takes_prefix s n :
  0 ≤ n →
  _start s n = PyStr.take (Z.to_nat n) s
  ∧ Z.of_nat (PyStr.len (_start s n)) = Z.min n (Z.of_nat (PyStr.len s))
  ∧ _start s n +:+ PyStr.drop (Z.to_nat n) s = s
  ∧ (Z.of_nat (PyStr.len s) ≤ n → _start s n = s)
  ∧ _start s 0 = "".
Proof.
  intros Hn. rewrite start_nonneg by done. split_and!.
  - done.
  - rewrite str_len_take. lia.
  - apply str_take_drop.
  - intros Hl. apply str_take_all. lia.
  - rewrite start_nonneg by done. by destruct s.
Qed.

(** On ["2024-Q1"] and 4: ["2024"]. *)
Lemma start_nonnegative_takes_prefix_witness :
  0 ≤ 4 ∧ _start "2024-Q1" 4 = PyStr.take 4 "2024-Q1".
Proof.
  assert (H : 0 ≤ 4) by lia.
  split; [exact H|].
  exact (proj1 (start_nonnegative_takes_prefix "2024-Q1" 4 H)).
Defined.

(** X2: for [n] other than 0, [end(s, n)] is the last [abs(n)] characters
    of [s], all of [s] when it has no more; the sign of [n] plays no part. *)
Theorem end_nonzero_takes_suffix s n :
  n ≠ 0 →
  _end s n = PyStr.drop (PyStr.len s - Z.to_nat (Z.abs n)) s
  ∧ Z.of_nat (PyStr.len (_end s n)) = Z.min (Z.abs n) (Z.of_nat (PyStr.len s))
  ∧ PyStr.take (PyStr.len s - Z.to_nat (Z.abs n)) s +:+ _end s n = s
  ∧ (Z.of_nat (PyStr.len s) ≤ Z.abs n → _end s n = s)
  ∧ _end s (- n) = _end s n.
Proof.
  intros Hn. split_and!.
  - by apply end_nonzero.
  - by apply end_nonzero_length.
  - rewrite end_nonzero by done. apply str_take_drop.
  - intros Hl. rewrite end_nonzero by done.
    replace (PyStr.len s - Z.to_nat (Z.abs n))%nat with 0%nat by lia.
    apply str_drop_0.
  - unfold _end. by rewrite Z.abs_opp.
Qed.

(** On ["2024-Q1"] and 2, or -2: ["Q1"]. *)
Lemma end_nonzero_takes_suffix_witness :
  2 ≠ 0 ∧ _end "2024-Q1" (- 2) = _end "2024-Q1" 2.
Proof.
  assert (H : 2 ≠ 0) by lia.
  split; [exact H|].
  exact (proj2 (proj2 (proj2 (proj2 (end_nonzero_takes_suffix "2024-Q1" 2 H))))).
Defined.

(** X3: [starts_with(s, p)] holds exactly when [s] is [p] followed by
    something, and [ends_with(s, p)] exactly when [s] is something followed
    by [p]; the empty string is a prefix and a suffix of every string. *)
Theorem affix_tests_characterised s p :
  (_starts_with s p = true ↔ ∃ r, s = p +:+ r)
  ∧ (_ends_with s p = true ↔ ∃ r, s = r +:+ p)
  ∧ _starts_with s "" = true
  ∧ _ends_with s "" = true.
Proof.
  split_and!.
  - apply startswith_iff.
  - apply endswith_iff.
  - apply startswith_iff. by exists s.
  - apply endswith_iff. exists s. by rewrite str_app_nil_r.
Qed.

(** X4: whatever the integer [n], [start(s, n)] is a prefix of [s] and
    [end(s, n)] a suffix of it, as [starts_with] and [ends_with] test it. *)
Theorem start_is_prefix_and_end_is_suffix s n :
  _starts_with s (_start s n) = true ∧ _ends_with s (_end s n) = true.
Proof.
  split.
  - apply startswith_iff. unfold _start. rewrite getslice_prefix.
    eexists. symmetry. apply str_take_drop.
  - apply endswith_iff. unfold _end. rewrite getslice_suffix.
    eexists. symmetry. apply str_take_drop.
Qed.

(** X5: the four constructors of durations agree on their units: 24 hours
    are a day, 60 minutes an hour and 60 seconds a minute, for every integer
    number of them, also when the duration is out of range. *)
Theorem timedelta_units_agree n :
  _timedelta_hours (VInt (24 * n)) = _timedelta_days (VInt n)
  ∧ _timedelta_minutes (VInt (60 * n)) = _timedelta_hours (VInt n)
  ∧ _timedelta_seconds (VInt (60 * n)) = _timedelta_minutes (VInt n).
Proof.
  unfold _timedelta_hours, _timedelta_days, _timedelta_minutes,
    _timedelta_seconds, timedelta_of_units.
  split_and!; f_equal; lia.
Qed.

(** X6: a duration of [n] seconds is built exactly when [n] lies within
    999999999 days of zero, and is then kept as days and seconds of the day:
    the seconds lie in [0 .. 86399], also for negative [n], and no
    microseconds remain.  Out of range the constructor raises
    [OverflowError]; a string, [None] or a date as argument raises
    [TypeError]. *)
Theorem timedelta_seconds_normalised n :
  (-999999999 * 86400 ≤ n < 1000000000 * 86400 →
   ∃ d, _timedelta_seconds (VInt n) = Ok (VTimedelta d)
        ∧ td_days d * 86400 + td_seconds d = n
        ∧ 0 ≤ td_seconds d < 86400
        ∧ td_microseconds d = 0)
  ∧ (¬ (-999999999 * 86400 ≤ n < 1000000000 * 86400) →
     _timedelta_seconds (VInt n) = Raise OverflowError)
  ∧ (∀ s, _timedelta_seconds (VStr s) = Raise TypeError)
  ∧ _timedelta_seconds VNone = Raise TypeError
  ∧ (∀ d, _timedelta_seconds (VDate d) = Raise TypeError).
Proof.
  unfold _timedelta_seconds, timedelta_of_units, timedelta_of_seconds.
  rewrite Z.mul_1_l. split_and!; try done.
  - intros Hn. rewrite bool_decide_eq_true_2.
    + eexists. split; [done|]. simpl.
      pose proof (Z.div_mod n 86400). pose proof (Z.mod_pos_bound n 86400).
      lia.
    + split.
      * apply Z.div_le_lower_bound; lia.
      * apply Z.lt_succ_r, Z.div_lt_upper_bound; lia.
  - intros Hn. rewrite bool_decide_eq_false_2; [done|].
    intros [Hlo Hhi]. apply Hn.
    pose proof (Z.div_mod n 86400). pose proof (Z.mod_pos_bound n 86400).
    lia.
Qed.

Section TimeFacts.
Context `{Externals}.

(** X7: what [unixtime] returns is left as it is by [unixtime]: the
    timestamp of a string or a datetime is a float, which passes through,
    and every other value was passed through already. *)
Theorem unixtime_result_is_fixed_point (x y : value) :
  _unixtime x = Ok y → _unixtime y = Ok y.
Proof.
  destruct x; simpl; try by intros [= <-].
  - destruct (dateutil_parse s) as [d|e]; simpl; [|done].
    destruct (datetime_timestamp d) as [f|e]; simpl; [|done].
    by intros [= <-].
  - unfold method_timestamp.
    destruct (datetime_timestamp d) as [f|e]; simpl; [|done].
    by intros [= <-].
Qed.
End TimeFacts.

(** * Further properties of the templates *)

Section OccurrenceFacts.
Implicit Types (s t sub body rest : string).

Lemma occurs_here sub rest : occurs sub (sub +:+ rest) = true.
Proof.
  destruct (sub +:+ rest) eqn:E; simpl; rewrite <- ?E, strip_prefix_app; done.
Qed.

Lemma occurs_later sub c s : occurs sub s = true → occurs sub (String c s) = true.
Proof. intros Hs. simpl. rewrite Hs. by destruct (PyStr.strip_prefix _ _). Qed.

Lemma occurs_app_r sub s t : occurs sub t = true → occurs sub (s +:+ t) = true.
Proof.
  intros Ht. induction s as [|c s IH]; [done|].
  rewrite str_app_cons. by apply occurs_later.
Qed.

Lemma occurs_tail sub c s :
  occurs sub (String c s) = false → occurs sub s = false.
Proof. simpl. by destruct (PyStr.strip_prefix _ _). Qed.

Lemma delimited_app body rest :
  "{{" +:+ body +:+ "}}" +:+ rest = ("{{" +:+ body +:+ "}}") +:+ rest.
Proof. by rewrite !str_app_assoc. Qed.

(** Where the pattern matches, both delimiters occur. *)
Lemma match_at_occurs s body :
  Re.match_at s = Some body →
  occurs "{{" s = true ∧ occurs "}}" s = true
  ∧ occurs ("{{" +:+ body +:+ "}}") s = true.
Proof.
  intros (rest & -> & _)%match_at_iff. split_and!.
  - apply (occurs_here "{{").
  - apply (occurs_app_r _ "{{"), (occurs_app_r _ body), (occurs_here "}}").
  - rewrite delimited_app. apply occurs_here.
Qed.

(** Without one of the delimiters there is no region. *)
Lemma no_delimiter_no_region t :
  occurs "{{" t = false ∨ occurs "}}" t = false → Re.bodies (Re.split t) = [].
Proof.
  unfold Re.split. induction t as [|c r IH]; [done|]. intros Ht.
  cbn [Re.scan].
  destruct (Re.match_at (String c r)) as [b|] eqn:Hm.
  - apply match_at_occurs in Hm as (H1 & H2 & _).
    destruct Ht; congruence.
  - simpl. apply IH. destruct Ht as [Ht|Ht]; [left|right];
      by apply occurs_tail in Ht.
Qed.

Lemma bodies_lit c ps : Re.bodies (Re.Lit c :: ps) = Re.bodies ps.
Proof. done. Qed.

Lemma bodies_region b ps : Re.bodies (Re.Region b :: ps) = b :: Re.bodies ps.
Proof. done. Qed.

(** The bodies of the regions contain no closing brace and stand between
    the delimiters in the template. *)
Lemma bodies_delimited t body :
  body ∈ Re.bodies (Re.split t) →
  PyStr.lacks "}" body = true ∧ occurs ("{{" +:+ body +:+ "}}") t = true.
Proof.
  induction t as [|c r Hm IH|b rest Hl IH] using split_ind.
  - by intros ?%elem_of_nil.
  - rewrite split_lit, bodies_lit by done. intros [? ?]%IH.
    split; [done|]. by apply occurs_later.
  - rewrite split_region, bodies_region by done.
    intros [->|Hin]%elem_of_cons.
    + split; [done|]. rewrite delimited_app. apply occurs_here.
    + destruct (IH Hin) as [? ?]. split; [done|].
      rewrite delimited_app. by apply occurs_app_r.
Qed.

(** A character other than the opening brace starts no match. *)
Lemma match_at_not_open c r :
  c ≠ "{"%char → Re.match_at (String c r) = None.
Proof.
  intros Hc. unfold Re.match_at.
  change (PyStr.strip_prefix "{{" (String c r))
    with (if Ascii.eqb "{" c then PyStr.strip_prefix "{" r else None).
  destruct (Ascii.eqb_spec "{" c) as [<-|_]; done.
Qed.
End OccurrenceFacts.

Section TemplateFacts.
Context `{Externals}.
Implicit Types (w : world) (names : option loc) (s t : string).

(** The expressions a rendering hands to [simple_eval] are bodies of
    regions of the template, in order; the clock is read once for each. *)
Lemma render_exprs names ps w :
  ∃ calls,
    evals (world_after (render names ps) w) = evals w ++ calls
    ∧ clock_reads (world_after (render names ps) w)
      = (clock_reads w + length calls)%nat
    ∧ call_expr <$> calls `prefix_of` Re.bodies ps
    ∧ ∀ outs, result_of (render names ps) w = Ok outs →
              call_expr <$> calls = Re.bodies ps.
Proof.
  revert w. induction ps as [|[ch|body] ps IH]; intros w.
  - exists []. unfold world_after; simpl. by rewrite app_nil_r, Nat.add_0_r.
  - destruct (IH w) as (calls & He & Hc & Hp & Hok). exists calls.
    unfold world_after, result_of in *. rewrite render_lit.
    destruct (render names ps w) as [[outs|e] w2]; simpl in *;
      split_and!; try done.
    intros outs' _. eauto.
  - set (w1 := world_after (eval_expression body names) w).
    destruct (IH w1) as (calls & He & Hc & Hp & Hok).
    assert (He1 : evals w1
                  = evals w ++ [Call body registry_functions (registry_names w names)])
      by apply eval_expression_calls.
    assert (Hc1 : clock_reads w1 = S (clock_reads w))
      by apply eval_expression_clock.
    unfold world_after, result_of in He, Hc, Hok |- *.
    rewrite render_region, repl_result, repl_world.
    change (world_after (eval_expression body names) w) with w1.
    destruct (result_of (eval_expression body names) w) as [v|e]; simpl.
    + exists (Call body registry_functions (registry_names w names) :: calls).
      destruct (render names ps w1) as [[outs|e] w2]; simpl in *;
        (split_and!;
         [by rewrite He, He1, <- app_assoc
         |rewrite Hc, Hc1; lia
         |by apply prefix_cons
         |]).
      * intros outs' _. f_equal. eauto.
      * done.
    + exists [Call body registry_functions (registry_names w names)].
      simpl. split_and!; try done.
      * rewrite Hc1. lia.
      * apply prefix_cons, prefix_nil.
Qed.

Lemma eval_template_world t names w :
  world_after (eval_template t names) w
  = world_after (render names (Re.split t)) w.
Proof.
  unfold world_after. rewrite eval_template_render.
  by destruct (render names (Re.split t) w) as [[outs|e] w2].
Qed.

(** X8: a template in which [{{] does not occur, or in which [}}] does not
    occur, is returned as it is and nothing is evaluated: single braces and
    delimiters without their partner are text. *)
Theorem eval_template_without_delimiter t names w :
  occurs "{{" t = false ∨ occurs "}}" t = false →
  eval_template t names w = (Ok t, w).
Proof.
  intros Hb%no_delimiter_no_region.
  by rewrite eval_template_render, render_literals, join_source.
Qed.

(** One character of text, then the rest. *)
Lemma eval_template_text c r names w :
  Re.match_at (String c r) = None →
  eval_template (String c r) names w
  = match eval_template r names w with
    | (Ok out, w') => (Ok (String c out), w')
    | (Raise e, w') => (Raise e, w')
    end.
Proof.
  intros Hm. rewrite !eval_template_render, split_lit, render_lit by done.
  by destruct (render names (Re.split r) w) as [[outs|e] w'].
Qed.

(** One region, then the rest. *)
Lemma eval_template_region body rest names w :
  PyStr.lacks "}" body = true →
  eval_template ("{{" +:+ body +:+ "}}" +:+ rest) names w
  = match eval_expression body names w with
    | (Ok v, w1) =>
      match eval_template rest names w1 with
      | (Ok out, w2) => (Ok (py_str v +:+ out), w2)
      | (Raise e, w2) => (Raise e, w2)
      end
    | (Raise e, w1) => (Raise e, w1)
    end.
Proof.
  intros Hl. rewrite !eval_template_render, split_region, render_region by done.
  rewrite repl_result, repl_world. unfold result_of, world_after.
  destruct (eval_expression body names w) as [[v|e] w1]; simpl; [|done].
  rewrite eval_template_render.
  by destruct (render names (Re.split rest) w1) as [[outs|e] w2].
Qed.

(** X9: text without opening brace in front of a template is copied in
    front of the rendering of the template, which is otherwise the same. *)
Theorem eval_template_literal_prefix lit t names w :
  PyStr.lacks "{" lit = true →
  eval_template (lit +:+ t) names w
  = (out ← eval_template t names; mret (lit +:+ out)) w.
Proof.
  rewrite bind_run. induction lit as [|c lit IH]; simpl; intros Hl.
  - rewrite str_app_nil_l.
    by destruct (eval_template t names w) as [[out|e] w'].
  - destruct (Ascii.eqb_spec c "{") as [->|Hc]; [done|].
    rewrite str_app_cons, eval_template_text, (IH Hl)
      by by apply match_at_not_open.
    by destruct (eval_template t names w) as [[out|e] w'].
Qed.

(** X10: a region at the head of a template is replaced by the printed
    value of its body, evaluated first, and the rest of the template is
    rendered after it, in the world the evaluation leaves; what was put in
    is not scanned again.  When the evaluation raises, the rest is not
    rendered. *)
Theorem eval_template_region_then_rest body rest names w :
  PyStr.lacks "}" body = true →
  eval_template ("{{" +:+ body +:+ "}}" +:+ rest) names w
  = (v ← eval_expression body names;
     out ← eval_template rest names;
     mret (py_str v +:+ out)) w.
Proof.
  intros Hl. rewrite eval_template_region, bind_run by done.
  destruct (eval_expression body names w) as [[v|e] w1]; [|done].
  rewrite bind_run.
  by destruct (eval_template rest names w1) as [[out|e] w2].
Qed.

(** X11: every expression a rendering hands to [simple_eval] contains no
    closing brace and stands in the template between [{{] and [}}]. *)
Theorem evaluated_expressions_are_delimited t names w :
  Forall (λ c, PyStr.lacks "}" (call_expr c) = true
               ∧ occurs ("{{" +:+ call_expr c +:+ "}}") t = true)
         (calls_between w (world_after (eval_template t names) w)).
Proof.
  destruct (render_exprs names (Re.split t) w) as (calls & He & Hc & Hp & _).
  unfold calls_between. rewrite eval_template_world, He, drop_app_length.
  apply Forall_forall. intros c Hin. apply bodies_delimited.
  destruct Hp as [k ->]. apply elem_of_app. left.
  by apply list_elem_of_fmap_2.
Qed.

(** X12: a rendering evaluates the regions of the template from left to
    right and stops at the first one that raises; it reads the clock once
    for each expression it evaluates, and one that returns has evaluated
    every region, once. *)
Theorem regions_are_evaluated_in_order t names w :
  call_expr <$> calls_between w (world_after (eval_template t names) w)
    `prefix_of` Re.bodies (Re.split t)
  ∧ clock_reads (world_after (eval_template t names) w)
    = (clock_reads w
       + length (calls_between w (world_after (eval_template t names) w)))%nat
  ∧ (∀ out, result_of (eval_template t names) w = Ok out →
       call_expr <$> calls_between w (world_after (eval_template t names) w)
       = Re.bodies (Re.split t)).
Proof.
  destruct (render_exprs names (Re.split t) w) as (calls & He & Hc & Hp & Hok).
  unfold calls_between. rewrite eval_template_world, He, drop_app_length.
  split; [done|]. split; [done|].
  intros out. unfold result_of. rewrite eval_template_render.
  unfold result_of in Hok.
  destruct (render names (Re.split t) w) as [[outs|e] w2]; [|done].
  intros _. by apply (Hok outs).
Qed.

(** X13: an empty dictionary of names is as good as none: the evaluation
    and the rendering return the same and leave the same world. *)
Theorem empty_names_are_no_names s l w :
  heap w !! l = Some ∅ →
  eval_expression s (Some l) w = eval_expression s None w
  ∧ eval_template s (Some l) w = eval_template s None w.
Proof.
  intros Hl.
  assert (Hexpr : ∀ e w0, heap w0 !! l = Some ∅ →
            eval_expression e (Some l) w0 = eval_expression e None w0).
  { intros e w0 H0. rewrite !eval_expression_run.
    unfold registry_names, overlay, deref; simpl. by rewrite H0. }
  split; [by apply Hexpr|].
  rewrite !eval_template_render.
  assert (Hr : ∀ ps w0, heap w0 !! l = Some ∅ →
            render (Some l) ps w0 = render None ps w0).
  { induction ps as [|[c|body] ps IH]; intros w0 H0.
    - done.
    - by rewrite !render_lit, IH.
    - rewrite !render_region, !repl_result, !repl_world.
      unfold result_of, world_after. rewrite (Hexpr body w0 H0).
      rewrite IH; [done|].
      by apply (eval_expression_extends body None w0). }
  by rewrite Hr.
Qed.
End TemplateFacts.

Section FurtherWitnesses.
Import TestEnv.

(** The timestamp of the first of January 2024 is a float, and stays. *)
Lemma unixtime_result_is_fixed_point_witness :
  _unixtime (VStr "2024-01-01") = Ok (VFloat (float_of_Z 1704067200))
  ∧ _unixtime (VFloat (float_of_Z 1704067200))
    = Ok (VFloat (float_of_Z 1704067200)).
Proof.
assert (Hx : _unixtime (VStr "2024-01-01") = Ok (VFloat (float_of_Z 1704067200)))
  by (vm_compute; reflexivity).
split; [exact Hx|].
exact (unixtime_result_is_fixed_point (VStr "2024-01-01") _ Hx).
Defined.

(** Braces that are no delimiters. *)
Lemma eval_template_without_delimiter_witness :
  occurs "{{" "a { b }} c" = false
  ∧ eval_template "a { b }} c" None start = (Ok "a { b }} c", start).
Proof.
assert (Ho : occurs "{{" "a { b }} c" = false) by (vm_compute; reflexivity).
split; [exact Ho|].
exact (eval_template_without_delimiter "a { b }} c" None start (or_introl Ho)).
Defined.

Lemma eval_template_literal_prefix_witness :
  PyStr.lacks "{" "include-" = true
  ∧ eval_template ("include-" +:+ "{{ 1 }}") None start
    = (out ← eval_template "{{ 1 }}" None; mret ("include-" +:+ out)) start.
Proof.
assert (Hl : PyStr.lacks "{" "include-" = true) by (vm_compute; reflexivity).
split; [exact Hl|].
exact (eval_template_literal_prefix "include-" "{{ 1 }}" None start Hl).
Defined.

Lemma eval_template_region_then_rest_witness :
  PyStr.lacks "}" " start('2024-Q1', 4) " = true
  ∧ eval_template ("{{" +:+ " start('2024-Q1', 4) " +:+ "}}" +:+ "-{{now}}")
                  None start
    = (v ← eval_expression " start('2024-Q1', 4) " None;
       out ← eval_template "-{{now}}" None;
       mret (py_str v +:+ out)) start.
Proof.
assert (Hl : PyStr.lacks "}" " start('2024-Q1', 4) " = true)
  by (vm_compute; reflexivity).
split; [exact Hl|].
exact (eval_template_region_then_rest " start('2024-Q1', 4) " "-{{now}}" None
         start Hl).
Defined.

Lemma empty_names_are_no_names_witness :
  heap (with_names ∅) !! 0%nat = Some ∅
  ∧ eval_template "{{now}}" (Some 0%nat) (with_names ∅)
    = eval_template "{{now}}" None (with_names ∅).
Proof.
assert (Hl : heap (with_names ∅) !! 0%nat = Some (∅ : gmap string value))
  by (vm_compute; reflexivity).
split; [exact Hl|].
exact (proj2 (empty_names_are_no_names "{{now}}" 0%nat (with_names ∅) Hl)).
Defined.

End FurtherWitnesses.

(** * The handler *)

Section HandlerFacts.
Context `{Externals} `{Personalize}.

Lemma act_bind_run {A B} (m : Act A) (k : A → Act B) c :
  (x ← m; k x) c
  = match m c with
    | (Ok a, c') => k a c'
    | (Raise e, c') => (Raise e, c')
    end.
Proof. reflexivity. Qed.

Lemma deletion_of_later current template filter filters x :
  deletion_of current template filters x →
  deletion_of current template (filter :: filters) x.
Proof.
intros (f & arn & -> & Hin & Harn & Hname & Ht & Hw).
exists f, arn. repeat split; auto. by right.
Qed.

(** The loop adds calls that delete listed filters, and nothing else. *)
Lemma rotate_calls current template filters b c :
  ∃ dels,
    api_calls (rotate current template filters b c).2 = api_calls c ++ dels
    ∧ Forall (deletion_of current template filters) dels.
Proof.
revert b c. induction filters as [|f fs IH]; intros b c.
- exists []. cbn. by rewrite app_nil_r.
- assert (Hrest : ∀ b' c', api_calls c' = api_calls c →
    ∃ dels, api_calls (rotate current template fs b' c').2 = api_calls c ++ dels
            ∧ Forall (deletion_of current template (f :: fs)) dels).
  { intros b' c' Hc'. destruct (IH b' c') as (dels & Hd & Hall).
    exists dels. rewrite Hd, Hc'. split; [done|].
    eapply Forall_impl; [exact Hall|]. intros x. apply deletion_of_later. }
  cbn [rotate]. rewrite act_bind_run. unfold pure at 1, getitem at 1.
  destruct (f !! "name") as [name|] eqn:Hname.
  2:{ exists []. cbn. by rewrite app_nil_r. }
  case_bool_decide as Hcur.
  { by apply Hrest. }
  destruct (truth template) eqn:Ht.
  2:{ by apply Hrest. }
  rewrite act_bind_run. unfold in_engine at 1.
  destruct (delete_match template f (engine c)) as [[matched|e] w] eqn:Hm.
  2:{ exists []. cbn. by rewrite app_nil_r. }
  rewrite act_bind_run.
  destruct matched.
  + rewrite act_bind_run. unfold pure at 1, getitem at 1.
    destruct (f !! "filterArn") as [arn|] eqn:Harn.
    2:{ exists []. cbn. by rewrite app_nil_r. }
    unfold client at 1. cbn [api_calls engine].
    destruct (delete_filter (api_calls c) arn) as [[]|e].
    * destruct (IH b (Cloud w (api_calls c ++ [DeleteFilter arn])))
        as (dels & Hd & Hall).
      exists (DeleteFilter arn :: dels). rewrite Hd. cbn [api_calls].
      rewrite <- app_assoc. split; [done|]. constructor.
      -- exists f, arn. repeat split; auto.
         ++ by left.
         ++ unfold named. rewrite Hname. intros [= ->]. by apply Hcur.
         ++ exists (engine c). unfold result_of. by rewrite Hm.
      -- eapply Forall_impl; [exact Hall|]. intros x. apply deletion_of_later.
    * exists [DeleteFilter arn]. cbn [snd api_calls]. split; [done|].
      constructor; [|constructor].
      exists f, arn. repeat split; auto.
      -- by left.
      -- unfold named. rewrite Hname. intros [= ->]. by apply Hcur.
      -- exists (engine c). unfold result_of. by rewrite Hm.
  + change ((mret () : Act unit) (Cloud w (api_calls c))) with (Ok (), Cloud w (api_calls c)).
    by apply Hrest.
Qed.

(** The flag the loop returns: it was set before, or a listed filter has
    the name. *)
Lemma rotate_flag current template filters b c b' c' :
  rotate current template filters b c = (Ok b', c') →
  b' = true ↔ (b = true ∨ Exists (named current) filters).
Proof.
revert b c. induction filters as [|f fs IH]; intros b c.
- cbn. intros [= -> _]. split; [by left|]. intros [|Hex]; [done|]. by inversion Hex.
- cbn [rotate]. rewrite act_bind_run. unfold pure at 1, getitem at 1.
  destruct (f !! "name") as [name|] eqn:Hname; [|done].
  assert (Hskip : name ≠ VStr current → ∀ c1,
            rotate current template fs b c1 = (Ok b', c') →
            b' = true ↔ (b = true ∨ Exists (named current) (f :: fs))).
  { intros Hne c1 Hr. rewrite (IH _ _ Hr). rewrite Exists_cons.
    unfold named at 2. rewrite Hname. split; [tauto|].
    intros [|[[= ?]|]]; tauto. }
  case_bool_decide as Hcur.
  { intros Hr. apply IH in Hr. split; [|tauto]. intros _. right. left.
    unfold named. by rewrite Hname, Hcur. }
  specialize (Hskip Hcur).
  destruct (truth template); [|by apply Hskip].
  rewrite act_bind_run. unfold in_engine at 1.
  destruct (delete_match template f (engine c)) as [[matched|e] w]; [|done].
  rewrite act_bind_run.
  destruct matched.
  + rewrite act_bind_run. unfold pure at 1, getitem at 1.
    destruct (f !! "filterArn") as [arn|]; [|done].
    unfold client at 1. cbn [api_calls engine].
    destruct (delete_filter (api_calls c) arn) as [[]|e]; [|done].
    by apply Hskip.
  + by apply Hskip.
Qed.

Lemma render_template_run template c :
  render_template template c
  = match template with
    | VStr s => (result_of (eval_template s None) (engine c),
                 Cloud (world_after (eval_template s None) (engine c)) (api_calls c))
    | _ => (Raise TypeError, c)
    end.
Proof.
destruct template; try reflexivity.
unfold render_template, in_engine, result_of, world_after.
by destruct (eval_template s None (engine c)).
Qed.

Lemma render_template_calls template c :
  api_calls (render_template template c).2 = api_calls c.
Proof. rewrite render_template_run. by destruct template. Qed.

Lemma render_template_ok template c x c' :
  render_template template c = (Ok x, c') →
  ∃ s, template = VStr s
       ∧ result_of (eval_template s None) (engine c) = Ok x
       ∧ c' = Cloud (world_after (eval_template s None) (engine c)) (api_calls c).
Proof.
rewrite render_template_run. destruct template; try done.
intros [= Hr <-]. by exists s.
Qed.

(** The handler once the four keys of the event have been read. *)
Lemma lambda_handler_keys event c arn nt et dt :
  event !! "datasetGroupArn" = Some arn →
  event !! "currentFilterNameTemplate" = Some nt →
  event !! "currentFilterExpressionTemplate" = Some et →
  event !! "deleteFilterMatchTemplate" = Some dt →
  lambda_handler event c
  = (current ← render_template nt;
     filters ← client (ListFilters arn 100) (λ calls, list_filters calls arn 100);
     current_filter_exists ← rotate current dt filters false;
     if current_filter_exists : bool then mret ()
     else expression ← render_template et;
          client (CreateFilter arn expression current)
                 (λ calls, create_filter calls arn expression current)) c.
Proof.
intros Ha Hn He Hd. unfold lambda_handler.
rewrite act_bind_run. unfold pure at 1, getitem at 1. rewrite Ha.
rewrite act_bind_run. unfold pure at 1, getitem at 1. rewrite Hn.
rewrite act_bind_run. unfold pure at 1, getitem at 1. rewrite He.
rewrite act_bind_run. unfold pure at 1, getitem at 1. rewrite Hd.
reflexivity.
Qed.

(** The calls of one run of the handler, by what happened. *)
Lemma lambda_handler_shape event c arn nt et dt :
  event !! "datasetGroupArn" = Some arn →
  event !! "currentFilterNameTemplate" = Some nt →
  event !! "currentFilterExpressionTemplate" = Some et →
  event !! "deleteFilterMatchTemplate" = Some dt →
  (api_calls (lambda_handler event c).2 = api_calls c
   ∧ (∃ e, (lambda_handler event c).1 = Raise e)
   ∧ ∀ s current, nt = VStr s →
       result_of (eval_template s None) (engine c) ≠ Ok current)
  ∨ ∃ s current,
      nt = VStr s
      ∧ result_of (eval_template s None) (engine c) = Ok current
      ∧ ((∃ e, list_filters (api_calls c) arn 100 = Raise e
               ∧ (lambda_handler event c).1 = Raise e
               ∧ api_calls (lambda_handler event c).2
                 = api_calls c ++ [ListFilters arn 100])
         ∨ ∃ filters dels tail,
             list_filters (api_calls c) arn 100 = Ok filters
             ∧ api_calls (lambda_handler event c).2
               = api_calls c ++ ListFilters arn 100 :: dels ++ tail
             ∧ Forall (deletion_of current dt filters) dels
             ∧ (tail = []
                ∨ ∃ expression t w,
                    tail = [CreateFilter arn expression current]
                    ∧ et = VStr t
                    ∧ result_of (eval_template t None) w = Ok expression
                    ∧ ¬ Exists (named current) filters)
             ∧ ((lambda_handler event c).1 = Ok () →
                Exists (named current) filters ∨ tail ≠ [])).
Proof.
intros Ha Hn He Hd.
destruct (lambda_handler event c) as [r c'] eqn:Hh. cbn [fst snd].
rewrite (lambda_handler_keys _ _ _ _ _ _ Ha Hn He Hd) in Hh.
rewrite act_bind_run in Hh.
destruct (render_template nt c) as [[current|e] c1] eqn:Hr.
2:{ injection Hh as <- <-. left. split; [|split].
    - pose proof (render_template_calls nt c) as Hc. by rewrite Hr in Hc.
    - by exists e.
    - intros s current ->. rewrite render_template_run in Hr.
      injection Hr as Hr _. by rewrite Hr. }
apply render_template_ok in Hr as (s & -> & Hcur & ->).
right. exists s, current. split; [done|]. split; [done|].
rewrite act_bind_run in Hh. unfold client at 1 in Hh. cbn [api_calls engine] in Hh.
destruct (list_filters (api_calls c) arn 100) as [filters|e] eqn:Hl.
2:{ injection Hh as <- <-. left. by exists e. }
right. exists filters.
rewrite act_bind_run in Hh.
set (c1 := Cloud _ (api_calls c ++ [ListFilters arn 100])) in Hh.
destruct (rotate_calls current dt filters false c1) as (dels & Hdels & Hall).
destruct (rotate current dt filters false c1) as [[b|e] c2] eqn:Hrot.
2:{ injection Hh as <- <-. exists dels, []. cbn [snd] in Hdels.
    rewrite Hdels. subst c1. cbn [api_calls].
    rewrite app_nil_r, <- app_assoc. repeat split; auto; done. }
apply rotate_flag in Hrot. cbn [snd] in Hdels.
destruct b.
- injection Hh as <- <-. exists dels, []. rewrite Hdels. subst c1. cbn [api_calls].
  rewrite app_nil_r, <- app_assoc. repeat split; auto.
  intros _. left. destruct Hrot as [Hrot _]. by destruct (Hrot eq_refl).
- assert (Habsent : ¬ Exists (named current) filters).
  { intros Hex. destruct Hrot as [_ Hrot]. by specialize (Hrot (or_intror Hex)). }
  rewrite act_bind_run in Hh.
  destruct (render_template et c2) as [[expression|e] c3] eqn:Hre.
  2:{ injection Hh as <- <-. exists dels, [].
      pose proof (render_template_calls et c2) as Hc. rewrite Hre in Hc.
      cbn [snd] in Hc. rewrite Hc, Hdels. subst c1. cbn [api_calls].
      rewrite app_nil_r, <- app_assoc. repeat split; auto; done. }
  apply render_template_ok in Hre as (t & -> & Hexp & ->).
  unfold client in Hh. cbn [api_calls engine] in Hh. injection Hh as <- <-.
  exists dels, [CreateFilter arn expression current].
  cbn [api_calls]. rewrite Hdels. subst c1.
  cbn [api_calls]. rewrite <- !app_assoc. repeat split; auto.
  right. exists expression, t, (engine c2). by repeat split.
Qed.

Lemma deletion_of_is_delete current template filters x :
  deletion_of current template filters x →
  is_delete x = true ∧ is_list x = false ∧ is_create x = false.
Proof. by intros (f & arn & -> & _). Qed.

Lemma api_calls_between_app c c' calls :
  api_calls c' = api_calls c ++ calls → api_calls_between c c' = calls.
Proof. unfold api_calls_between. intros ->. apply drop_app_length. Qed.

(** A call that creates, after calls that do not, is the last one. *)
Lemma create_is_last (pre tail before after : list api_call) x :
  Forall (λ y, is_create y = false) pre →
  (tail = [] ∨ ∃ y, tail = [y]) →
  pre ++ tail = before ++ x :: after →
  is_create x = true →
  after = [] ∧ tail = [x].
Proof.
revert before. induction pre as [|p pre IH]; intros before Hpre Htail Heq Hx.
- destruct Htail as [->|[y ->]]; cbn in Heq.
  + by destruct before.
  + destruct before as [|b before]; cbn in Heq.
    * by injection Heq as -> <-.
    * injection Heq as _ Heq. by destruct before.
- apply Forall_cons in Hpre as [Hp Hpre].
  destruct before as [|b before]; cbn in Heq.
  + injection Heq as -> _. congruence.
  + injection Heq as _ Heq. by apply (IH before).
Qed.

(** Without a match template the loop only looks at the names. *)
Lemma rotate_without_template current template filters b c :
  truth template = false →
  Forall (λ f, is_Some (f !! "name")) filters →
  ∃ b', rotate current template filters b c = (Ok b', c).
Proof.
intros Ht Hnames. revert b. induction Hnames as [|f fs [name Hname] _ IH]; intros b.
- by exists b.
- cbn [rotate]. rewrite act_bind_run. unfold pure at 1, getitem at 1.
  rewrite Hname, Ht. case_bool_decide; apply IH.
Qed.

End HandlerFacts.

Ltac read_key Hk :=
  rewrite act_bind_run; unfold pure at 1, getitem at 1; rewrite Hk.

Section HandlerTheorems.
Context `{Externals} `{Personalize}.

(** X14: an event that lacks one of the four keys makes the handler raise
    [KeyError] before it has done anything: no template is rendered, the
    clock is not read, the client is not called. *)
Theorem handler_needs_the_four_keys event c :
  event !! "datasetGroupArn" = None
  ∨ event !! "currentFilterNameTemplate" = None
  ∨ event !! "currentFilterExpressionTemplate" = None
  ∨ event !! "deleteFilterMatchTemplate" = None →
  lambda_handler event c = (Raise (OtherError "KeyError"), c).
Proof.
intros Hmissing. unfold lambda_handler.
destruct (event !! "datasetGroupArn") as [arn|] eqn:Ha; read_key Ha; [|done].
destruct (event !! "currentFilterNameTemplate") as [nt|] eqn:Hn;
  read_key Hn; [|done].
destruct (event !! "currentFilterExpressionTemplate") as [et|] eqn:He;
  read_key He; [|done].
destruct (event !! "deleteFilterMatchTemplate") as [dt|] eqn:Hd;
  read_key Hd; [|done].
by destruct Hmissing as [|[|[|]]].
Qed.

(** X15: whatever the event and the answers of the service, the client is
    called only after the name template has been rendered, the first call
    lists the filters of the dataset group of the event with
    [maxResults = 100], and the filters are listed once. *)
Theorem handler_lists_filters_first event c :
  api_calls_between c (lambda_handler event c).2 = []
  ∨ ∃ arn s current rest,
      event !! "datasetGroupArn" = Some arn
      ∧ event !! "currentFilterNameTemplate" = Some (VStr s)
      ∧ result_of (eval_template s None) (engine c) = Ok current
      ∧ api_calls_between c (lambda_handler event c).2
        = ListFilters arn 100 :: rest
      ∧ Forall (λ x, is_list x = false) rest.
Proof.
assert (Hnone : ∀ c', api_calls_between c' c' = []).
{ intros c'. apply drop_all. }
destruct (event !! "datasetGroupArn") as [arn|] eqn:Ha.
2:{ left. unfold lambda_handler. read_key Ha. apply Hnone. }
destruct (event !! "currentFilterNameTemplate") as [nt|] eqn:Hn.
2:{ left. unfold lambda_handler. read_key Ha. read_key Hn. apply Hnone. }
destruct (event !! "currentFilterExpressionTemplate") as [et|] eqn:He.
2:{ left. unfold lambda_handler. read_key Ha. read_key Hn. read_key He.
    apply Hnone. }
destruct (event !! "deleteFilterMatchTemplate") as [dt|] eqn:Hd.
2:{ left. unfold lambda_handler. read_key Ha. read_key Hn. read_key He.
    read_key Hd. apply Hnone. }
destruct (lambda_handler_shape event c arn nt et dt Ha Hn He Hd)
  as [(Hcalls & _)|(s & current & -> & Hcur & Hrest)].
{ left. unfold api_calls_between. rewrite Hcalls. apply drop_all. }
right. exists arn, s, current.
destruct Hrest as [(e & _ & _ & Hcalls)
                  |(filters & dels & tail & _ & Hcalls & Hdels & Htail & _)].
- exists []. repeat split; auto. by apply api_calls_between_app.
- exists (dels ++ tail). repeat split; auto.
  + by apply api_calls_between_app.
  + apply Forall_app. split.
    * eapply Forall_impl; [exact Hdels|]. intros x Hx.
      by apply deletion_of_is_delete in Hx as (_ & ? & _).
    * destruct Htail as [->|(expression & t & w & -> & _)]; by repeat constructor.
Qed.


(** X17: the handler creates at most one filter, as its last call; the
    filter is created in the dataset group of the event under the current
    name, with the rendered expression template as its expression, and only
    when no listed filter has the current name. *)
Theorem handler_creates_only_the_missing_filter
    event c arn s current filters before x after :
  event !! "datasetGroupArn" = Some arn →
  event !! "currentFilterNameTemplate" = Some (VStr s) →
  result_of (eval_template s None) (engine c) = Ok current →
  list_filters (api_calls c) arn 100 = Ok filters →
  api_calls_between c (lambda_handler event c).2 = before ++ x :: after →
  is_create x = true →
  after = []
  ∧ ¬ Exists (named current) filters
  ∧ ∃ expression t w,
      x = CreateFilter arn expression current
      ∧ event !! "currentFilterExpressionTemplate" = Some (VStr t)
      ∧ result_of (eval_template t None) w = Ok expression.
Proof.
intros Ha Hn Hcur Hl Hcalls Hx.
destruct (event !! "currentFilterExpressionTemplate") as [et|] eqn:He.
2:{ revert Hcalls. unfold lambda_handler. read_key Ha. read_key Hn. read_key He.
    unfold api_calls_between. cbn [snd]. rewrite drop_all. by destruct before. }
destruct (event !! "deleteFilterMatchTemplate") as [dt|] eqn:Hd.
2:{ revert Hcalls. unfold lambda_handler. read_key Ha. read_key Hn. read_key He.
    read_key Hd.
    unfold api_calls_between. cbn [snd]. rewrite drop_all. by destruct before. }
destruct (lambda_handler_shape event c arn _ et dt Ha Hn He Hd)
  as [(_ & _ & Hno)|(s' & current' & [= <-] & Hcur' & Hrest)].
{ by destruct (Hno s current eq_refl). }
rewrite Hcur in Hcur'. injection Hcur' as <-.
destruct Hrest as [(e & Hl' & _)
                  |(filters' & dels & tail & Hl' & Hshape & Hdels & Htail & _)];
  rewrite Hl in Hl'; [done|]. injection Hl' as <-.
rewrite (api_calls_between_app _ _ _ Hshape) in Hcalls.
assert (Hpre : Forall (λ y, is_create y = false) (ListFilters arn 100 :: dels)).
{ constructor; [done|]. eapply Forall_impl; [exact Hdels|]. intros y Hy.
  by apply deletion_of_is_delete in Hy as (_ & _ & ?). }
assert (Hshort : tail = [] ∨ ∃ y, tail = [y]).
{ destruct Htail as [->|(expression & t & w & -> & _)]; [by left|right; eauto]. }
change (ListFilters arn 100 :: dels ++ tail)
  with ((ListFilters arn 100 :: dels) ++ tail) in Hcalls.
destruct (create_is_last _ _ _ _ _ Hpre Hshort Hcalls Hx) as [-> Hlast].
destruct Htail as [->|(expression & t & w & -> & -> & Hexp & Habsent)]; [done|].
injection Hlast as <-. split; [done|]. split; [done|].
by exists expression, t, w.
Qed.

(** X18: a handler that returns has rendered the name template and listed
    the filters, and leaves a filter with the current name: one of the
    listed filters has it, or the last call created it. *)
Theorem handler_success_leaves_the_current_filter event c c' :
  lambda_handler event c = (Ok (), c') →
  ∃ arn s current filters,
    event !! "datasetGroupArn" = Some arn
    ∧ event !! "currentFilterNameTemplate" = Some (VStr s)
    ∧ result_of (eval_template s None) (engine c) = Ok current
    ∧ list_filters (api_calls c) arn 100 = Ok filters
    ∧ (Exists (named current) filters
       ∨ ∃ expression,
           last (api_calls_between c c')
           = Some (CreateFilter arn expression current)).
Proof.
intros Hrun.
destruct (event !! "datasetGroupArn") as [arn|] eqn:Ha.
2:{ revert Hrun. unfold lambda_handler. by read_key Ha. }
destruct (event !! "currentFilterNameTemplate") as [nt|] eqn:Hn.
2:{ revert Hrun. unfold lambda_handler. read_key Ha. by read_key Hn. }
destruct (event !! "currentFilterExpressionTemplate") as [et|] eqn:He.
2:{ revert Hrun. unfold lambda_handler. read_key Ha. read_key Hn.
    by read_key He. }
destruct (event !! "deleteFilterMatchTemplate") as [dt|] eqn:Hd.
2:{ revert Hrun. unfold lambda_handler. read_key Ha. read_key Hn. read_key He.
    by read_key Hd. }
destruct (lambda_handler_shape event c arn nt et dt Ha Hn He Hd)
  as [(_ & (e & Hraise) & _)|(s & current & -> & Hcur & Hrest)].
{ rewrite Hrun in Hraise. done. }
exists arn, s, current.
destruct Hrest as [(e & _ & Hraise & _)
                  |(filters & dels & tail & Hl & Hshape & _ & Htail & Hleft)].
{ rewrite Hrun in Hraise. done. }
exists filters. repeat split; auto.
rewrite Hrun in Hshape, Hleft. cbn [fst snd] in Hshape, Hleft.
destruct (Hleft eq_refl) as [Hex|Hne]; [by left|right].
destruct Htail as [->|(expression & t & w & -> & _)]; [done|].
exists expression. rewrite (api_calls_between_app _ _ _ Hshape).
change (ListFilters arn 100 :: dels ++ [CreateFilter arn expression current])
  with ((ListFilters arn 100 :: dels) ++ [CreateFilter arn expression current]).
apply last_snoc.
Qed.

(** X19: with a match template that is [None], empty or otherwise false,
    the handler deletes nothing, whatever the service lists. *)
Theorem handler_without_match_template_deletes_nothing event c template :
  event !! "deleteFilterMatchTemplate" = Some template →
  truth template = false →
  Forall (λ x, is_delete x = false)
         (api_calls_between c (lambda_handler event c).2).
Proof.
intros Hd Hfalse.
assert (Hnone : ∀ c', Forall (λ x, is_delete x = false) (api_calls_between c' c')).
{ intros c'. unfold api_calls_between. rewrite drop_all. constructor. }
destruct (event !! "datasetGroupArn") as [arn|] eqn:Ha.
2:{ unfold lambda_handler. read_key Ha. apply Hnone. }
destruct (event !! "currentFilterNameTemplate") as [nt|] eqn:Hn.
2:{ unfold lambda_handler. read_key Ha. read_key Hn. apply Hnone. }
destruct (event !! "currentFilterExpressionTemplate") as [et|] eqn:He.
2:{ unfold lambda_handler. read_key Ha. read_key Hn. read_key He. apply Hnone. }
destruct (lambda_handler_shape event c arn nt et template Ha Hn He Hd)
  as [(Hcalls & _)|(s & current & -> & Hcur & Hrest)].
{ unfold api_calls_between. rewrite Hcalls, drop_all. constructor. }
destruct Hrest as [(e & _ & _ & Hcalls)
                  |(filters & dels & tail & _ & Hcalls & Hdels & Htail & _)];
  rewrite (api_calls_between_app _ _ _ Hcalls).
- by repeat constructor.
- constructor; [done|]. apply Forall_app. split.
  + eapply Forall_impl; [exact Hdels|].
    intros x (f & a & _ & _ & _ & _ & Ht & _). congruence.
  + destruct Htail as [->|(expression & t & w & -> & _)]; by repeat constructor.
Qed.

(** X20: when a listed filter has the current name and there is no match
    template, the handler renders the name template, lists the filters and
    returns: the expression template is not rendered, so that an error in
    it goes unnoticed until the day the filter is missing. *)
Theorem handler_is_idle_when_the_filter_exists
    event c arn s expression_template template current filters :
  event !! "datasetGroupArn" = Some arn →
  event !! "currentFilterNameTemplate" = Some (VStr s) →
  event !! "currentFilterExpressionTemplate" = Some expression_template →
  event !! "deleteFilterMatchTemplate" = Some template →
  truth template = false →
  result_of (eval_template s None) (engine c) = Ok current →
  list_filters (api_calls c) arn 100 = Ok filters →
  Forall (λ f, is_Some (f !! "name")) filters →
  Exists (named current) filters →
  lambda_handler event c
  = (Ok (), Cloud (world_after (eval_template s None) (engine c))
                  (api_calls c ++ [ListFilters arn 100])).
Proof.
intros Ha Hn He Hd Ht Hcur Hl Hnames Hex.
rewrite (lambda_handler_keys _ _ _ _ _ _ Ha Hn He Hd).
rewrite act_bind_run, render_template_run, Hcur.
rewrite act_bind_run. unfold client at 1. cbn [api_calls engine]. rewrite Hl.
rewrite act_bind_run.
destruct (rotate_without_template current template filters false
            (Cloud (world_after (eval_template s None) (engine c))
                   (api_calls c ++ [ListFilters arn 100])) Ht Hnames)
  as [b Hrot].
rewrite Hrot. apply rotate_flag in Hrot.
destruct Hrot as [_ Hrot]. by rewrite (Hrot (or_intror Hex)).
Qed.

End HandlerTheorems.

Section HandlerWitnesses.
Import TestEnv TestCloud.

(** An event without a match template at all. *)
Lemma handler_needs_the_four_keys_witness :
  lambda_handler (delete "deleteFilterMatchTemplate" rotation) fresh_cloud
  = (Raise (OtherError "KeyError"), fresh_cloud).
Proof.
apply handler_needs_the_four_keys. right. right. right.
vm_compute. reflexivity.
Defined.


Lemma handler_creates_only_the_missing_filter_witness :
  ¬ Exists (named "include-2024-01-01") initial
  ∧ ∃ expression t w,
      CreateFilter (VStr "arn:dsg/shop")
                   "INCLUDE ItemID WHERE Items.day IN (1704067201)"
                   "include-2024-01-01"
      = CreateFilter (VStr "arn:dsg/shop") expression "include-2024-01-01"
      ∧ rotation !! "currentFilterExpressionTemplate" = Some (VStr t)
      ∧ result_of (eval_template t None) w = Ok expression.
Proof.
refine (proj2 (handler_creates_only_the_missing_filter rotation fresh_cloud
         (VStr "arn:dsg/shop")
         "include-{{datetime_format(now,'%Y-%m-%d')}}"
         "include-2024-01-01" initial
         [ListFilters (VStr "arn:dsg/shop") 100;
          DeleteFilter (VStr "arn:f/include-2023-12-30");
          DeleteFilter (VStr "arn:f/include-2023-12-31")]
         (CreateFilter (VStr "arn:dsg/shop")
                       "INCLUDE ItemID WHERE Items.day IN (1704067201)"
                       "include-2024-01-01")
         [] _ _ _ _ _ _)).
- vm_compute. reflexivity.
- vm_compute. reflexivity.
- vm_compute. reflexivity.
- reflexivity.
- vm_compute. reflexivity.
- reflexivity.
Defined.

Lemma handler_success_leaves_the_current_filter_witness :
  ∃ arn s current filters,
    rotation !! "datasetGroupArn" = Some arn
    ∧ rotation !! "currentFilterNameTemplate" = Some (VStr s)
    ∧ result_of (eval_template s None) (engine fresh_cloud) = Ok current
    ∧ list_filters (api_calls fresh_cloud) arn 100 = Ok filters
    ∧ (Exists (named current) filters
       ∨ ∃ expression,
           last (api_calls_between fresh_cloud
                   (lambda_handler rotation fresh_cloud).2)
           = Some (CreateFilter arn expression current)).
Proof.
apply (handler_success_leaves_the_current_filter rotation fresh_cloud
         (lambda_handler rotation fresh_cloud).2).
rewrite (surjective_pairing (lambda_handler rotation fresh_cloud)) at 1.
f_equal; vm_compute; reflexivity.
Defined.

Lemma handler_without_match_template_deletes_nothing_witness :
  Forall (λ x, is_delete x = false)
         (api_calls_between fresh_cloud (lambda_handler steady fresh_cloud).2).
Proof.
apply (handler_without_match_template_deletes_nothing steady fresh_cloud VNone).
- vm_compute. reflexivity.
- reflexivity.
Defined.

(** The expression template of [steady] is not an expression, and the
    handler returns. *)
Lemma handler_is_idle_when_the_filter_exists_witness :
  result_of (eval_template "{{1 +}}" None) start = Raise SyntaxError
  ∧ lambda_handler steady fresh_cloud
    = (Ok (), Cloud (world_after (eval_template "exclude-purchased" None) start)
                    [ListFilters (VStr "arn:dsg/shop") 100]).
Proof.
split; [vm_compute; reflexivity|].
apply (handler_is_idle_when_the_filter_exists steady fresh_cloud
         (VStr "arn:dsg/shop") "exclude-purchased" (VStr "{{1 +}}") VNone
         "exclude-purchased" initial).
- vm_compute. reflexivity.
- vm_compute. reflexivity.
- vm_compute. reflexivity.
- vm_compute. reflexivity.
- reflexivity.
- vm_compute. reflexivity.
- reflexivity.
- repeat constructor; vm_compute; eauto.
- apply Exists_cons_tl, Exists_cons_tl, Exists_cons_hd. vm_compute. reflexivity.
Defined.

End HandlerWitnesses.
